(** * web-scraping: the arXiv paper fetcher and the GitHub repository fetcher

    A shallow embedding of [src/arxiv-scraping.py] and
    [src/github-scraping.py], and the properties of the two tools stated and
    proved over it.

    Conventions.
    - A Python [str] is a sequence of Unicode code points: [pystr].
    - Python's [None] is [None] of an [option] type; a dictionary key that may
      be missing is an [option] field of a record.
    - Code that raises returns [Raise e]; code that talks to the network, the
      clock, the file system or a subprocess threads an explicit state and
      appends to a log of events.
    - [while True] loops recurse on a fuel argument; every statement that the
      code returns a value is proved for all large enough fuel.
    - [print] is logged and does not raise; the clock counts whole seconds. *)

From Stdlib Require Import ZArith NArith Ascii String List Lia.
From Stdlib.Strings Require Import Byte.
From stdpp Require Import base decidable option list strings gmap.

Local Open Scope Z_scope.

(** ** Python strings *)

Module PyStr.

Definition pystr := list N.

(** A string literal of the source (all of them are ASCII). *)
Definition lit (s : string) : pystr :=
  List.map N_of_ascii (list_ascii_of_string s).
Arguments lit : simpl never.

Definition between (lo hi c : N) : bool := ((lo <=? c) && (c <=? hi))%N.

(** [str.isspace] of one code point: the complete list of CPython's
    [_PyUnicode_IsWhitespace]. *)
Definition isspace (c : N) : bool :=
  between 0x09 0x0D c || between 0x1C 0x20 c || (c =? 0x85)%N || (c =? 0xA0)%N
  || (c =? 0x1680)%N || between 0x2000 0x200A c || between 0x2028 0x2029 c
  || (c =? 0x202F)%N || (c =? 0x205F)%N || (c =? 0x3000)%N.

(** [str.isalnum] of one code point below U+0100: letters, decimal digits,
    and the characters with a numeric value (superscripts and vulgar
    fractions) of the Basic Latin and Latin-1 Supplement blocks. *)
Definition isalnum_latin1 (c : N) : bool :=
  between 0x30 0x39 c || between 0x41 0x5A c || between 0x61 0x7A c
  || (c =? 0xAA)%N || between 0xB2 0xB3 c || (c =? 0xB5)%N
  || between 0xB9 0xBA c || between 0xBC 0xBE c
  || between 0xC0 0xD6 c || between 0xD8 0xF6 c || between 0xF8 0xFF c.


(** [s.lstrip()], [s.rstrip()], [s.strip()] with no argument. *)
Fixpoint lstrip (s : pystr) : pystr :=
  match s with
  | [] => []
  | c :: s' => if isspace c then lstrip s' else s
  end.

Fixpoint rstrip (s : pystr) : pystr :=
  match s with
  | [] => []
  | c :: s' =>
      match rstrip s' with
      | [] => if isspace c then [] else [c]
      | r => c :: r
      end
  end.

Definition strip (s : pystr) : pystr := rstrip (lstrip s).

(** [s.split(sep)] for a one-character separator: never the empty list. *)
Fixpoint split (sep : N) (s : pystr) : list pystr :=
  match s with
  | [] => [[]]
  | c :: s' =>
      if (c =? sep)%N then [] :: split sep s'
      else match split sep s' with
           | p :: ps => (c :: p) :: ps
           | [] => [[c]]
           end
  end.

(** [xs[-1]] of a list known to be non-empty ([d] is never used then). *)
Definition last_item {A} (d : A) (xs : list A) : A := List.last xs d.

(** [needle in haystack] on strings. *)
Fixpoint startswith (p s : pystr) : bool :=
  match p, s with
  | [], _ => true
  | _ :: _, [] => false
  | a :: p', b :: s' => (a =? b)%N && startswith p' s'
  end.

Fixpoint contains (needle hay : pystr) : bool :=
  startswith needle hay
  || match hay with
     | [] => false
     | _ :: hay' => contains needle hay'
     end.

(** [os.path.join(a, b)] of [posixpath]. *)
Definition path_join (a b : pystr) : pystr :=
  if startswith (lit "/") b then b
  else match List.last a 0%N with
       | 0x2F%N => a ++ b
       | _ => if decide (a = []) then b else a ++ lit "/" ++ b
       end.

End PyStr.
Export PyStr.

(** ** The arXiv paper fetcher: [src/arxiv-scraping.py] *)

Module ArxivScraping.

(** *** Results of code that may raise *)

Inductive Exn :=
  | AttributeError   (* [None.strip()], [None.split('/')] *)
  | KeyError (key : string)
  | RequestException (* anything [requests.get] raises *)
  | OSError.         (* anything [open] or [f.write] raises *)

Inductive Result (A : Type) :=
  | Ok (a : A)
  | Raise (e : Exn).
Arguments Ok {A} a.
Arguments Raise {A} e.

#[global] Instance Result_ret : MRet Result := λ A a, Ok a.
#[global] Instance Result_bind : MBind Result := λ A B k r,
  match r with
  | Ok a => k a
  | Raise e => Raise e
  end.

(** [for x in xs: ys.append(f(x))] where [f] may raise. *)
Fixpoint for_each {A B} (f : A → Result B) (xs : list A) : Result (list B) :=
  match xs with
  | [] => Ok []
  | x :: xs' => y ← f x ; ys ← for_each f xs' ; Ok (y :: ys)
  end.

(** *** [xml.etree.ElementTree] elements

    [ET.fromstring] has already turned the document into a tree (a
    malformed document raises there, before any of the code below runs).
    Tags are in ElementTree's [{namespace}local] form; [text] is [None] for
    an element without character data, such as [<title/>]. *)

#[warnings="-register-all"]
Inductive Element :=
  Elem (tag : pystr) (attrib : gmap pystr pystr) (text : option pystr)
       (children : list Element).

Definition tag (e : Element) : pystr := let 'Elem t _ _ _ := e in t.
Definition attrib (e : Element) : gmap pystr pystr := let 'Elem _ a _ _ := e in a.
Definition text (e : Element) : option pystr := let 'Elem _ _ x _ := e in x.
Definition children (e : Element) : list Element := let 'Elem _ _ _ c := e in c.

(** [e.findall(path)] and [e.find(path)] for a path that is one qualified
    tag: the direct children with that tag, in document order, and the
    first of them. *)
Definition findall (t : pystr) (e : Element) : list Element :=
  filter (λ c, tag c = t) (children e).

Definition find (t : pystr) (e : Element) : option Element :=
  head (findall t e).

(** [e.get(key)] *)
Definition get (key : pystr) (e : Element) : option pystr := attrib e !! key.

(** The [ns] prefix map of [parse_response], applied to each path. *)
Definition atom (local : string) : pystr :=
  lit "{http://www.w3.org/2005/Atom}" ++ lit local.

(** *** Paper records

    The dictionary [paper] of the source. [title], [authors] and [summary]
    are always set; [arxiv_id] and [pdf_url] are keys that may be missing.
    A value that the code takes from ElementTree without using it as a
    string ([name_elem.text], [link.get('href')]) may be [None]. *)
Record Paper := {
  title : pystr;
  authors : list (option pystr);
  summary : pystr;
  arxiv_id : option pystr;
  pdf_url : option (option pystr);
}.

(** [elem.text.strip()]: raises on an element without text. *)
Definition text_strip (e : Element) : Result pystr :=
  match text e with
  | Some t => Ok (strip t)
  | None => Raise AttributeError
  end.

(** The author loop: one name per author that has a name element. *)
Fixpoint author_names (l : list Element) : list (option pystr) :=
  match l with
  | [] => []
  | author :: l' =>
      match find (atom "name") author with
      | Some name_elem => text name_elem :: author_names l'
      | None => author_names l'
      end
  end.

(** The link loop: stops at the first link of type application/pdf. *)
Fixpoint first_pdf_link (l : list Element) : option (option pystr) :=
  match l with
  | [] => None
  | link :: l' =>
      if decide (get (lit "type") link = Some (lit "application/pdf"))
      then Some (get (lit "href") link)
      else first_pdf_link l'
  end.

(** The body of the loop over entries. *)
Definition parse_entry (entry : Element) : Result Paper :=
  t ← match find (atom "title") entry with
      | Some title_elem => text_strip title_elem
      | None => Ok (lit "Unknown Title")
      end ;
  let a := author_names (findall (atom "author") entry) in
  s ← match find (atom "summary") entry with
      | Some summary_elem => text_strip summary_elem
      | None => Ok []
      end ;
  i ← match find (atom "id") entry with
      | Some id_elem =>
          match text id_elem with
          | Some x => Ok (Some (last_item [] (split 0x2F%N x)))
          | None => Raise AttributeError
          end
      | None => Ok None
      end ;
  Ok {| title := t; authors := a; summary := s; arxiv_id := i;
        pdf_url := first_pdf_link (findall (atom "link") entry) |}.

Definition parse_response (root : Element) : Result (list Paper) :=
  for_each parse_entry (findall (atom "entry") root).

(** *** The downloader and its world

    [download_paper] talks to the network and to the file system. Both are
    oracles of the environment; what the code does with them is logged. The
    oracles answer by URL and by path and content: what the server sends
    and whether the disk takes a file is fixed for a run, and the theorems
    hold for every such world. *)

Definition bytes := list byte.

Inductive HttpOutcome :=
  | GetRaises                                    (* [requests.get] raised *)
  | Response (status_code : Z) (content : bytes).

Inductive WriteOutcome :=
  | OpenRaises                  (* [open(filepath, 'wb')] raised *)
  | WriteRaises (written : nat) (* [f.write] raised after [written] bytes *)
  | Written.

Record Env := {
  http : pystr → HttpOutcome;
  disk : pystr → bytes → WriteOutcome;
}.

Inductive Message :=
  | MsgPdfLinkNotFound (title : pystr)   (* "PDF link not found: {title}" *)
  | MsgDownloading (title : pystr)       (* "Downloading: {title}" *)
  | MsgDownloadCompleted (filename : pystr) (* "Download completed: {filename}" *)
  | MsgDownloadErrorStatus (status : Z)  (* "Download error: {status_code}" *)
  | MsgDownloadErrorExn (e : Exn).       (* "Download error: {e}" *)

(** The literal text each message starts with. *)
Definition prefix_of (m : Message) : pystr :=
  match m with
  | MsgPdfLinkNotFound _ => lit "PDF link not found: "
  | MsgDownloading _ => lit "Downloading: "
  | MsgDownloadCompleted _ => lit "Download completed: "
  | MsgDownloadErrorStatus _ | MsgDownloadErrorExn _ => lit "Download error: "
  end.

Inductive Event :=
  | Print (m : Message)
  | HttpGet (url : option pystr)
  | FileOpen (path : pystr).

Definition is_io (ev : Event) : bool :=
  match ev with
  | Print _ => false
  | HttpGet _ | FileOpen _ => true
  end.

Record State := {
  files : gmap pystr bytes;
  log : list Event;
}.

(** Computations that read and change the state and may raise. *)
Definition M (A : Type) : Type := State → Result A * State.

#[global] Instance M_ret : MRet M := λ A a st, (Ok a, st).
#[global] Instance M_bind : MBind M := λ A B k m st,
  match m st with
  | (Ok a, st') => k a st'
  | (Raise e, st') => (Raise e, st')
  end.

Definition raise {A} (e : Exn) : M A := λ st, (Raise e, st).

(** [try: body  except Exception as e: handler(e)] *)
Definition try_except {A} (body : M A) (handler : Exn → M A) : M A := λ st,
  match body st with
  | (Ok a, st') => (Ok a, st')
  | (Raise e, st') => handler e st'
  end.

Definition emit (ev : Event) : M unit := λ st,
  (Ok (), {| files := files st; log := log st ++ [ev] |}).

Definition print (m : Message) : M unit := emit (Print m).

Definition store (path : pystr) (data : bytes) : M unit := λ st,
  (Ok (), {| files := <[path := data]> (files st); log := log st |}).

Record ArxivScraper := {
  base_url : pystr;
  download_dir : pystr;
}.

Section Downloader.

(** [str.isalnum] for the code points from U+0100 on: a table of the
    Unicode database, which is not reproduced here. *)
Variable isalnum_wide : N → bool.

Variable env : Env.

Definition isalnum (c : N) : bool :=
  if (c <? 0x100)%N then isalnum_latin1 c else isalnum_wide c.

(** [c.isalnum() or c in (' ', '-', '_')] *)
Definition kept (c : N) : bool :=
  isalnum c || (c =? 0x20)%N || (c =? 0x2D)%N || (c =? 0x5F)%N.

(** The two assignments to [safe_title]. *)
Definition safe_title (title : pystr) : pystr :=
  take 100 (rstrip (filter (λ c, kept c) title)).

(** [paper['arxiv_id']] *)
Definition get_arxiv_id (paper : Paper) : M pystr :=
  match arxiv_id paper with
  | Some i => mret i
  | None => raise (KeyError "arxiv_id")
  end.

(** [requests.get(url)]: a URL that is [None] raises [MissingSchema]. *)
Definition requests_get (url : option pystr) : M (Z * bytes) :=
  _ ← emit (HttpGet url);
  match url with
  | None => raise RequestException
  | Some u =>
      match http env u with
      | GetRaises => raise RequestException
      | Response code content => mret (code, content)
      end
  end.

(** [with open(filepath, 'wb') as f: f.write(content)] *)
Definition write_file (filepath : pystr) (content : bytes) : M unit :=
  _ ← emit (FileOpen filepath);
  match disk env filepath content with
  | OpenRaises => raise OSError
  | WriteRaises n => _ ← store filepath (take n content); raise OSError
  | Written => store filepath content
  end.

Definition download_paper (self : ArxivScraper) (paper : Paper) : M bool :=
  match pdf_url paper with
  | None =>
      _ ← print (MsgPdfLinkNotFound (title paper));
      mret false
  | Some url =>
      try_except
        (let safe := safe_title (title paper) in
         i ← get_arxiv_id paper;
         let filename := i ++ lit "_" ++ safe ++ lit ".pdf" in
         let filepath := path_join (download_dir self) filename in
         _ ← print (MsgDownloading (title paper));
         response ← requests_get url;
         if fst response =? 200 then
           _ ← write_file filepath (snd response);
           _ ← print (MsgDownloadCompleted filename);
           mret true
         else
           _ ← print (MsgDownloadErrorStatus (fst response));
           mret false)
        (λ e, _ ← print (MsgDownloadErrorExn e); mret false)
  end.

End Downloader.

(** *** Vocabulary of the statements *)

Definition has_text (o : option Element) : bool :=
  match o with
  | Some el => bool_decide (is_Some (text el))
  | None => true
  end.

(** The title, summary and id elements that [parse_entry] reads, when
    present, carry text. *)
Definition texts_present (entry : Element) : bool :=
  has_text (find (atom "title") entry)
  && has_text (find (atom "summary") entry)
  && has_text (find (atom "id") entry).

Definition is_pdf_link (link : Element) : Prop :=
  get (lit "type") link = Some (lit "application/pdf").

(** What the record made from an entry holds. *)
Record describes (entry : Element) (p : Paper) : Prop := {
  title_default : find (atom "title") entry = None → title p = lit "Unknown Title";
  title_trimmed : ∀ el, find (atom "title") entry = Some el →
    ∃ t, text el = Some t ∧ title p = strip t;
  summary_default : find (atom "summary") entry = None → summary p = [];
  summary_trimmed : ∀ el, find (atom "summary") entry = Some el →
    ∃ t, text el = Some t ∧ summary p = strip t;
  authors_named :
    authors p = text <$> omap (find (atom "name")) (findall (atom "author") entry);
  id_missing : find (atom "id") entry = None → arxiv_id p = None;
  id_segment : ∀ el, find (atom "id") entry = Some el →
    ∃ x before seg, text el = Some x ∧ arxiv_id p = Some seg
      ∧ x = before ++ seg ∧ (0x2F%N ∉ seg)
      ∧ (before = [] ∨ last before = Some 0x2F%N);
  pdf_missing :
    Forall (λ link, ¬ is_pdf_link link) (findall (atom "link") entry) →
    pdf_url p = None;
  pdf_first : ∀ before link after,
    findall (atom "link") entry = before ++ link :: after →
    Forall (λ l, ¬ is_pdf_link l) before → is_pdf_link link →
    pdf_url p = Some (get (lit "href") link);
}.

(** The path [download_paper] writes to, for the identifier [i]. *)
Definition filepath (isalnum_wide : N → bool) (self : ArxivScraper)
    (paper : Paper) (i : pystr) : pystr :=
  path_join (download_dir self)
    (i ++ lit "_" ++ safe_title isalnum_wide (title paper) ++ lit ".pdf").

(** [download_paper] got a 200 response with [body] for the record's URL
    and wrote all of it to [path]. *)
Definition download_succeeds (isalnum_wide : N → bool) (env : Env)
    (self : ArxivScraper) (paper : Paper) (path : pystr) (body : bytes) : Prop :=
  ∃ i u, arxiv_id paper = Some i ∧ pdf_url paper = Some (Some u)
    ∧ path = filepath isalnum_wide self paper i
    ∧ http env u = Response 200 body
    ∧ disk env path body = Written.

(** Sample inputs *)

Definition el (t : string) (x : option pystr) (c : list Element) : Element :=
  Elem (atom t) ∅ x c.

Definition link (type href : string) : Element :=
  Elem (atom "link") {[ lit "type" := lit type; lit "href" := lit href ]} None [].

(** Two entries: one complete, one with nothing but an author without a
    name. *)
Definition sample_feed : Element :=
  el "feed" None
    [ el "title" (Some (lit "ArXiv Query")) [];
      el "entry" None
        [ el "id" (Some (lit "http://arxiv.org/abs/2101.00001v1")) [];
          el "title" (Some (lit "  Attention  ")) [];
          el "summary" (Some (lit " We propose. ")) [];
          el "author" None [ el "name" (Some (lit "A. Vaswani")) [] ];
          el "author" None [];
          link "text/html" "http://arxiv.org/abs/2101.00001v1";
          link "application/pdf" "http://arxiv.org/pdf/2101.00001v1";
          link "application/pdf" "http://mirror/2101.00001v1" ];
      el "entry" None [ el "author" None [] ] ].

(** One entry whose summary element is empty: [<summary/>]. *)
Definition feed_with_empty_summary : Element :=
  el "feed" None
    [ el "entry" None
        [ el "id" (Some (lit "http://arxiv.org/abs/2101.00001v1")) [];
          el "title" (Some (lit "Attention")) [];
          el "summary" None [] ] ].


Definition no_table : N → bool := λ _, false.

Definition sample_scraper : ArxivScraper :=
  {| base_url := lit "http://export.arxiv.org/api/query";
     download_dir := lit "arxiv_papers" |}.

Definition sample_paper : Paper :=
  {| title := lit "Attention"; authors := []; summary := [];
     arxiv_id := Some (lit "2101.00001v1");
     pdf_url := Some (Some (lit "http://arxiv.org/pdf/2101.00001v1")) |}.

Definition paper_without_pdf : Paper :=
  {| title := lit "Attention"; authors := []; summary := [];
     arxiv_id := Some (lit "2101.00001v1"); pdf_url := None |}.

Definition sample_env : Env :=
  {| http := λ _, Response 200 [x25; x50; x44; x46];
     disk := λ _ _, Written |}.

Definition empty_state : State := {| files := ∅; log := [] |}.

End ArxivScraping.

(** ** The GitHub repository fetcher: [src/github-scraping.py] *)

Module GithubScraping.

Definition GITHUB_API_BASE : pystr := lit "https://api.github.com".
Definition API_DEFAULT_PER_PAGE : Z := 100.
Definition MIN_CLONE_INTERVAL_SECONDS : Z := 10.

(** *** Python values *)

(** A value that is a [str] or [None], formatted by an f-string. *)
Definition fmt (o : option pystr) : pystr :=
  match o with
  | Some s => s
  | None => lit "None"
  end.

(** Truth value of a [str] or [None]. *)
Definition truthy (o : option pystr) : bool :=
  match o with
  | Some (_ :: _) => true
  | _ => false
  end.

(** [a or b] *)
Definition py_or (a b : option pystr) : option pystr :=
  if truthy a then a else b.

(** The dataclass of the source. [owner] is the caller's [owner] when the
    item names none, and that is [None] when [--user] is the empty string. *)
Record Repo := {
  owner : option pystr;
  name : pystr;
  full_name : pystr;
  ssh_url : pystr;
  archived : bool;
  description : option pystr;
}.

(** *** HTTP responses *)

(** What [item.get("owner", {})] finds. *)
Inductive OwnerField :=
  | OwnerMissing
  | OwnerObject (login : option pystr)
  | OwnerNotObject.   (* [null], a string, a number: has no [.get] *)

(** One element of the decoded page: an object whose scalar members, when
    present, have the types GitHub documents, or something that is not an
    object at all. *)
Inductive Item :=
  | NotObject
  | Object (item_owner : OwnerField) (item_name item_full_name item_ssh_url : option pystr)
           (item_archived : option bool) (item_description : option pystr).

(** What [resp.json()] does. *)
Inductive JsonBody :=
  | NotJson                 (* raises *)
  | NotList                 (* a JSON value that is not a list *)
  | JsonList (items : list Item).

(** Header names are looked up case-insensitively: the map is keyed by the
    lower-case name. Header values are Latin-1 text. *)
Record Response := {
  status_code : Z;
  headers : gmap string string;
  text : pystr;
  json : JsonBody;
}.

Definition ascii_lower (a : ascii) : ascii :=
  let n := N_of_ascii a in
  if between 0x41 0x5A n then ascii_of_N (n + 32) else a.

Fixpoint lower_name (s : string) : string :=
  match s with
  | EmptyString => EmptyString
  | String a s' => String (ascii_lower a) (lower_name s')
  end.

(** [response.headers.get(name)] *)
Definition headers_get (name : string) (r : Response) : option string :=
  headers r !! lower_name name.
Arguments headers_get : simpl never.

(** *** [int(s)] on header text

    Surrounding white space is skipped, a sign may come first, and single
    underscores may separate digits. More than 4300 digits are refused. *)
Definition int_isspace (c : N) : bool :=
  between 0x09 0x0D c || (c =? 0x20)%N || (c =? 0x85)%N || (c =? 0xA0)%N.

Definition is_digit (c : N) : bool := between 0x30 0x39 c.

Fixpoint drop_spaces (s : list N) : list N :=
  match s with
  | c :: s' => if int_isspace c then drop_spaces s' else s
  | [] => []
  end.

Fixpoint parse_digits (s : list N) (acc : Z) (after_digit : bool) : option Z :=
  match s with
  | [] => if after_digit then Some acc else None
  | c :: s' =>
      if is_digit c then parse_digits s' (10 * acc + (Z.of_N c - 0x30)) true
      else if (c =? 0x5F)%N && after_digit then parse_digits s' acc false
      else if forallb int_isspace s && after_digit then Some acc
      else None
  end.

Definition MAX_STR_DIGITS : nat := 4300.

Definition py_int (s : string) : option Z :=
  let body := drop_spaces (List.map N_of_ascii (list_ascii_of_string s)) in
  let '(negative, digits) :=
    match body with
    | 0x2D%N :: d => (true, d)
    | 0x2B%N :: d => (false, d)
    | _ => (false, body)
    end in
  if (MAX_STR_DIGITS <? length (filter (λ c, is_digit c) digits))%nat then None
  else (λ v, if negative : bool then - v else v) <$> parse_digits digits 0 false.
Arguments py_int : simpl never.

(** *** Exceptions and results *)

Inductive Exn :=
  | RuntimeError_api (status : Z) (body : pystr) (* "GitHub API error: ..." *)
  | RuntimeError_unexpected                      (* the payload is not a list *)
  | ValueError              (* [int(reset)]; [time.sleep] of a negative number *)
  | OverflowError           (* [time.sleep] of too many seconds *)
  | AttributeError          (* [.get] on something that is not an object *)
  | JSONDecodeError
  | RequestException        (* anything [requests.get] raises *)
  | OSError                 (* [os.makedirs], [subprocess.run] *)
  | ReError.                (* [re.compile] *)

Inductive Result (A : Type) :=
  | Ok (a : A)
  | Raise (e : Exn)
  | Exit (code : Z)   (* [sys.exit(code)]: passes every [except Exception] *)
  | OutOfFuel.        (* the loop was cut off by the model *)
Arguments Ok {A} a.
Arguments Raise {A} e.
Arguments Exit {A} code.
Arguments OutOfFuel {A}.

#[global] Instance Result_ret : MRet Result := λ A a, Ok a.
#[global] Instance Result_bind : MBind Result := λ A B k r,
  match r with
  | Ok a => k a
  | Raise e => Raise e
  | Exit c => Exit c
  | OutOfFuel => OutOfFuel
  end.

(** *** The world *)

Inductive ParamValue :=
  | PInt (n : Z)
  | PStr (s : string).

Inductive Message :=
  | MsgGitNotFound
  | MsgRateLimited (sleep_seconds : Z)
  | MsgIntervalTooSmall
  | MsgTarget (is_org : bool) (owner : option pystr)
  | MsgFetching
  | MsgListingFailed (e : Exn)
  | MsgFetched (n : nat)
  | MsgFiltered (n : nat)
  | MsgExisting (idx total : nat) (full_name dest : pystr)
  | MsgPulling
  | MsgPullFailed (code : Z)
  | MsgCloning (idx total : nat) (full_name dest : pystr)
  | MsgCloneFailed (code : Z)
  | MsgGitOutput             (* [print(result.stdout, end="")] *)
  | MsgDone (clones_done : Z) (total : nat).

Inductive Event :=
  | Which                                   (* [shutil.which("git")] *)
  | Print (m : Message)
  | Get (url : pystr) (params : gmap string ParamValue)
  | Sleep (seconds : Z)
  | Makedirs (path : pystr)
  | IsDir (path : pystr)
  | GitClone (ssh_url dest : pystr)
  | GitPull (dest : pystr).

(** Events on the network or in a subprocess. *)
Definition is_network_or_subprocess (ev : Event) : bool :=
  match ev with
  | Get _ _ | GitClone _ _ | GitPull _ => true
  | _ => false
  end.

(** The [k]-th HTTP request is answered after [latency] seconds, by a
    response or by an exception of [requests]. *)
Record Exchange := {
  latency : Z;
  outcome : option Response;
}.

Record Env := {
  git_on_path : bool;          (* [shutil.which("git") is not None] *)
  server : nat → Exchange;     (* by number of the request *)
  makedirs_ok : bool;          (* [os.makedirs(dest, exist_ok=True)] returns *)
  has_git_dir : nat → bool;    (* [.git] is there, by position of the repository *)
  git_starts : nat → bool;     (* [subprocess.run] returns, by position *)
  git_seconds : nat → Z;       (* the time git takes, by position *)
  git_rc : nat → Z;            (* return code of git, by position *)
}.

Record State := {
  now : Z;            (* [int(time.time())] *)
  served : nat;       (* HTTP requests made so far *)
  log : list Event;
}.

Definition M (A : Type) : Type := State → Result A * State.

#[global] Instance M_ret : MRet M := λ A a st, (Ok a, st).
#[global] Instance M_bind : MBind M := λ A B k m st,
  match m st with
  | (Ok a, st') => k a st'
  | (Raise e, st') => (Raise e, st')
  | (Exit c, st') => (Exit c, st')
  | (OutOfFuel, st') => (OutOfFuel, st')
  end.

Definition raise {A} (e : Exn) : M A := λ st, (Raise e, st).
Definition sys_exit {A} (code : Z) : M A := λ st, (Exit code, st).
Definition out_of_fuel {A} : M A := λ st, (OutOfFuel, st).
Definition lift {A} (r : Result A) : M A := λ st, (r, st).

(** [try: body  except Exception as e: handler(e)] *)
Definition try_except {A} (body : M A) (handler : Exn → M A) : M A := λ st,
  match body st with
  | (Raise e, st') => handler e st'
  | other => other
  end.

Definition emit (ev : Event) : M unit := λ st,
  (Ok (), {| now := now st; served := served st; log := log st ++ [ev] |}).

Definition print (m : Message) : M unit := emit (Print m).

Definition time_time : M Z := λ st, (Ok (now st), st).

(** [time.sleep(seconds)] with an [int]: CPython turns the seconds into
    nanoseconds in a signed 64-bit integer and raises [OverflowError] when
    they do not fit, which is above 9223372036 seconds; a negative number
    raises [ValueError]. Nothing is slept then. *)
Definition SLEEP_MAX_SECONDS : Z := 9223372036.

Definition time_sleep (seconds : Z) : M unit := λ st,
  if SLEEP_MAX_SECONDS <? seconds then (Raise OverflowError, st)
  else if seconds <? 0 then (Raise ValueError, st)
  else (Ok (), {| now := now st + seconds; served := served st;
                  log := log st ++ [Sleep seconds] |}).

(** *** The functions of the source *)

Record Args := {
  arg_user : option pystr;
  arg_org : option pystr;
  arg_match : option pystr;
  arg_regex : option pystr;
  arg_dest : pystr;
  arg_interval : Z;
  arg_include_archived : bool;
  arg_pull_if_exists : bool;
  arg_sleep_on_skip : bool;
}.

Section Program.

(** The regular-expression engine ([re.compile], [Pattern.search]) and
    [str.lower] are those of the platform. *)
Variable Pattern : Type.
Variable re_compile : pystr → option Pattern.   (* [None]: [re.error] *)
Variable re_search : Pattern → pystr → bool.
Variable str_lower : pystr → pystr.

Variable env : Env.

Definition ensure_git_available : M unit :=
  _ ← emit Which;
  if git_on_path env then mret ()
  else _ ← print MsgGitNotFound; sys_exit 1.

Definition build_repos_endpoint (owner : option pystr) (is_org : bool) : pystr :=
  if is_org then GITHUB_API_BASE ++ lit "/orgs/" ++ fmt owner ++ lit "/repos"
  else GITHUB_API_BASE ++ lit "/users/" ++ fmt owner ++ lit "/repos".

(** [requests.get(url, headers=headers, params=params, timeout=60)] *)
Definition requests_get (url : pystr) (params : gmap string ParamValue) : M Response :=
  λ st,
    let x := server env (served st) in
    let st' := {| now := now st + latency x; served := S (served st);
                  log := log st ++ [Get url params] |} in
    match outcome x with
    | Some r => (Ok r, st')
    | None => (Raise RequestException, st')
    end.

(** [int(reset)] *)
Definition int_of (s : string) : M Z :=
  match py_int s with
  | Some n => mret n
  | None => raise ValueError
  end.

(** The part of the loop body after the rate-limit test. *)
Definition check_status (response : Response) : M Response :=
  if 400 <=? status_code response
  then raise (RuntimeError_api (status_code response) (text response))
  else mret response.

Fixpoint request_with_rate_limit (fuel : nat) (url : pystr)
    (params : gmap string ParamValue) : M Response :=
  match fuel with
  | O => out_of_fuel
  | S fuel' =>
      response ← requests_get url params;
      if (status_code response =? 403)
         && bool_decide (headers_get "X-RateLimit-Remaining" response = Some "0"%string)
      then
        match headers_get "X-RateLimit-Reset" response with
        | Some reset =>
            reset_epoch ← int_of reset;
            t ← time_time;
            let sleep_seconds := Z.max 1 (reset_epoch - t + 2) in
            _ ← print (MsgRateLimited sleep_seconds);
            _ ← time_sleep sleep_seconds;
            request_with_rate_limit fuel' url params
        | None => check_status response
        end
      else check_status response
  end.

(** [resp.json()] followed by the [isinstance(data, list)] test. *)
Definition json_list (resp : Response) : M (list Item) :=
  match json resp with
  | NotJson => raise JSONDecodeError
  | NotList => raise RuntimeError_unexpected
  | JsonList items => mret items
  end.

(** The [Repo(...)] expression for one item. *)
Definition repo_of_item (owner : option pystr) (item : Item) : Result Repo :=
  match item with
  | NotObject => Raise AttributeError
  | Object o n f s a d =>
      login ← match o with
              | OwnerMissing | OwnerObject None => Ok owner
              | OwnerObject (Some l) => Ok (Some l)
              | OwnerNotObject => Raise AttributeError
              end;
      Ok {| owner := login;
            name := default [] n;
            full_name := default (fmt owner ++ lit "/unknown") f;
            ssh_url := default (lit "git@github.com:" ++ fmt owner ++ lit "/unknown.git") s;
            archived := default false a;
            description := d |}
  end.

(** [for item in data: repos.append(Repo(...))] *)
Fixpoint append_items (owner : option pystr) (data : list Item) (repos : list Repo)
    : Result (list Repo) :=
  match data with
  | [] => Ok repos
  | item :: data' =>
      r ← repo_of_item owner item;
      append_items owner data' (repos ++ [r])
  end.

Definition page_params (page : Z) : gmap string ParamValue :=
  {[ "per_page"%string := PInt API_DEFAULT_PER_PAGE;
     "page"%string := PInt page;
     "type"%string := PStr "all";
     "sort"%string := PStr "updated";
     "direction"%string := PStr "desc" ]}.

(** The [while True] loop of [fetch_all_repos]. *)
Fixpoint fetch_loop (fuel : nat) (url : pystr) (owner : option pystr)
    (page : Z) (repos : list Repo) : M (list Repo) :=
  match fuel with
  | O => out_of_fuel
  | S fuel' =>
      resp ← request_with_rate_limit (S fuel') url (page_params page);
      data ← json_list resp;
      match data with
      | [] => mret repos
      | _ :: _ =>
          repos' ← lift (append_items owner data repos);
          fetch_loop fuel' url owner (page + 1) repos'
      end
  end.

Definition fetch_all_repos (fuel : nat) (owner : option pystr) (is_org : bool)
    : M (list Repo) :=
  let url := build_repos_endpoint owner is_org in
  fetch_loop fuel url owner 1 [].

(** [f"{r.name}\n{r.full_name}\n{r.description or ''}"] *)
Definition text_blob (r : Repo) : pystr :=
  name r ++ [0x0A%N] ++ full_name r ++ [0x0A%N] ++ default [] (description r).

(** The three tests that set [matched]. *)
Definition matched (match_substring : option pystr)
    (compiled_regex : option Pattern) (r : Repo) : bool :=
  let matched := false in
  let matched :=
    if truthy match_substring
       && contains (str_lower (fmt match_substring)) (str_lower (text_blob r))
    then true else matched in
  let matched :=
    if negb matched
       && match compiled_regex with
          | Some c => re_search c (text_blob r)
          | None => false
          end
    then true else matched in
  let matched :=
    if bool_decide (match_substring = None)
       && match compiled_regex with None => true | Some _ => false end
    then true else matched in
  matched.

(** The [for r in repos] loop. *)
Fixpoint filter_loop (match_substring : option pystr)
    (compiled_regex : option Pattern) (include_archived : bool)
    (repos : list Repo) (filtered : list Repo) : list Repo :=
  match repos with
  | [] => filtered
  | r :: repos' =>
      if negb include_archived && archived r
      then filter_loop match_substring compiled_regex include_archived repos' filtered
      else if matched match_substring compiled_regex r
      then filter_loop match_substring compiled_regex include_archived repos'
             (filtered ++ [r])
      else filter_loop match_substring compiled_regex include_archived repos' filtered
  end.

Definition filter_repos (repos : list Repo) (match_substring match_regex : option pystr)
    (include_archived include_forks : bool) : Result (list Repo) :=
  compiled_regex ←
    (if truthy match_regex
     then match re_compile (fmt match_regex) with
          | Some c => Ok (Some c)
          | None => Raise ReError
          end
     else Ok None);
  Ok (filter_loop match_substring compiled_regex include_archived repos []).

(** [subprocess.run([...], check=False)]: git takes its time and returns its
    code, or the call raises because git cannot be started. *)
Definition subprocess_run (idx : nat) : M Z := λ st,
  if git_starts env idx
  then (Ok (git_rc env idx),
        {| now := now st + git_seconds env idx; served := served st;
           log := log st |})
  else (Raise OSError, st).

Definition run_git_clone (idx : nat) (ssh_url dest_dir : pystr) : M Z :=
  _ ← emit (GitClone ssh_url dest_dir);
  returncode ← subprocess_run idx;
  _ ← print MsgGitOutput;
  mret returncode.

Definition run_git_pull (idx : nat) (dest_dir : pystr) : M Z :=
  _ ← emit (GitPull dest_dir);
  returncode ← subprocess_run idx;
  _ ← print MsgGitOutput;
  mret returncode.

Definition throttle_sleep (seconds : Z) : M unit :=
  let seconds := Z.max MIN_CLONE_INTERVAL_SECONDS seconds in
  time_sleep seconds.

(** [os.path.isdir(os.path.join(repo_dest, ".git"))] *)
Definition isdir_git (idx : nat) (repo_dest : pystr) : M bool :=
  _ ← emit (IsDir (path_join repo_dest (lit ".git")));
  mret (has_git_dir env idx).

(** [os.makedirs(args.dest, exist_ok=True)] *)
Definition makedirs (path : pystr) : M unit :=
  _ ← emit (Makedirs path);
  if makedirs_ok env then mret () else raise OSError.

(** The [for idx, repo in enumerate(matched, start=1)] loop; [pos] counts
    the repositories already handled. *)
Fixpoint clone_loop (args : Args) (total : nat) (pos : nat) (rest : list Repo)
    (clones_done : Z) : M Z :=
  match rest with
  | [] => mret clones_done
  | repo :: rest' =>
      let repo_dest := path_join (arg_dest args) (name repo) in
      present ← isdir_git pos repo_dest;
      if present : bool then
        _ ← print (MsgExisting (S pos) total (full_name repo) repo_dest);
        clones_done' ←
          (if arg_pull_if_exists args then
             _ ← print MsgPulling;
             code ← run_git_pull pos repo_dest;
             clones_done' ←
               (if bool_decide (code ≠ 0)
                then _ ← print (MsgPullFailed code); mret clones_done
                else mret (clones_done + 1));
             _ ← (if arg_sleep_on_skip args
                  then throttle_sleep (arg_interval args) else mret ());
             mret clones_done'
           else
             _ ← (if arg_sleep_on_skip args
                  then throttle_sleep (arg_interval args) else mret ());
             mret clones_done);
        clone_loop args total (S pos) rest' clones_done'
      else
        _ ← print (MsgCloning (S pos) total (full_name repo) repo_dest);
        code ← run_git_clone pos (ssh_url repo) repo_dest;
        clones_done' ←
          (if bool_decide (code ≠ 0)
           then _ ← print (MsgCloneFailed code); mret clones_done
           else mret (clones_done + 1));
        _ ← throttle_sleep (arg_interval args);
        clone_loop args total (S pos) rest' clones_done'
  end.

(** [main], after [parse_args] has returned [args]. *)
Definition main (fuel : nat) (args : Args) : M unit :=
  _ ← ensure_git_available;
  if arg_interval args <? MIN_CLONE_INTERVAL_SECONDS then
    _ ← print MsgIntervalTooSmall;
    sys_exit 2
  else
    let owner := py_or (arg_user args) (arg_org args) in
    let is_org := truthy (arg_org args) in
    _ ← makedirs (arg_dest args);
    _ ← print (MsgTarget is_org owner);
    _ ← print MsgFetching;
    repos ← try_except (fetch_all_repos fuel owner is_org)
              (λ e, _ ← print (MsgListingFailed e); sys_exit 1);
    _ ← print (MsgFetched (length repos));
    matched ← lift (filter_repos repos (arg_match args) (arg_regex args)
                      (arg_include_archived args) true);
    _ ← print (MsgFiltered (length matched));
    clones_done ← clone_loop args (length matched) 0 matched 0;
    print (MsgDone clones_done (length matched)).

(** The exit status of the process: 0 when [main] returns, the argument of
    [sys.exit], and 1 when an exception reaches the top level. *)
Definition exit_status {A} (r : Result A) : option Z :=
  match r with
  | Ok _ => Some 0
  | Exit c => Some c
  | Raise _ => Some 1
  | OutOfFuel => None
  end.

End Program.

Definition initial (t : Z) : State := {| now := t; served := 0; log := [] |}.

(** *** Vocabulary of the statements *)

(** The explicit signal that the quota is used up. *)
Definition rate_limit_signal (r : Response) : Prop :=
  status_code r = 403 ∧ headers_get "X-RateLimit-Remaining" r = Some "0"%string.

(** What an exchange is to the listing: a rate-limit answer that names its
    reset time, or a page. *)
Inductive Served :=
  | Waited (reset_epoch : Z)
  | Paged (items : list Item).

Inductive answers (x : Exchange) : Served → Prop :=
  | answers_wait r reset n :
      outcome x = Some r → rate_limit_signal r →
      headers_get "X-RateLimit-Reset" r = Some reset → py_int reset = Some n →
      answers x (Waited n)
  | answers_page r items :
      outcome x = Some r → status_code r < 400 → json r = JsonList items →
      answers x (Paged items).


(** The page index of each request: it advances after a page and stays
    after a rate-limit answer. *)
Fixpoint page_numbers (page : Z) (kinds : list Served) : list Z :=
  match kinds with
  | [] => []
  | Waited _ :: kinds' => page :: page_numbers page kinds'
  | Paged _ :: kinds' => page :: page_numbers (page + 1) kinds'
  end.


(** The request as the specification words it: a GET to
    [/users/{owner}/repos] or [/orgs/{owner}/repos] of the API, with the
    query parameters [per_page=100], [page], [type=all], [sort=updated],
    [direction=desc]. *)
Definition spec_endpoint (owner : option pystr) (is_org : bool) : pystr :=
  lit "https://api.github.com"
  ++ (if is_org then lit "/orgs/" else lit "/users/") ++ fmt owner ++ lit "/repos".

Definition spec_params (page : Z) : gmap string ParamValue :=
  {[ "per_page"%string := PInt 100;
     "page"%string := PInt page;
     "type"%string := PStr "all";
     "sort"%string := PStr "updated";
     "direction"%string := PStr "desc" ]}.



(** The requests of a log, in order. *)
Definition gets (l : list Event) : list (pystr * gmap string ParamValue) :=
  omap (λ ev, match ev with Get u p => Some (u, p) | _ => None end) l.

(** The state after a rate-limit answer [x] with reset time [n] to a request
    made in [st]: the request, the message and the sleep are logged and the
    clock has advanced by the latency and the sleep. *)
Definition sleep_seconds (st : State) (x : Exchange) (n : Z) : Z :=
  Z.max 1 (n - (now st + latency x) + 2).

Definition after_wait (st : State) (x : Exchange) (n : Z) (url : pystr)
    (params : gmap string ParamValue) : State :=
  {| now := now st + latency x + sleep_seconds st x n;
     served := S (served st);
     log := log st ++ [Get url params; Print (MsgRateLimited (sleep_seconds st x n));
                       Sleep (sleep_seconds st x n)] |}.

(** The state after a rate-limit answer whose wait [time.sleep] refuses: the
    request and the message are logged, nothing is slept. *)
Definition after_refused (st : State) (x : Exchange) (n : Z) (url : pystr)
    (params : gmap string ParamValue) : State :=
  {| now := now st + latency x; served := S (served st);
     log := log st ++ [Get url params;
                       Print (MsgRateLimited (sleep_seconds st x n))] |}.

(** The state after an exchange that ends the call. *)
Definition after_get (st : State) (x : Exchange) (url : pystr)
    (params : gmap string ParamValue) : State :=
  {| now := now st + latency x; served := S (served st);
     log := log st ++ [Get url params] |}.

(** The rest of one turn of the loop of [fetch_all_repos], after the
    request. *)
Definition handle_page (env : Env) (fuel : nat) (url : pystr)
    (owner : option pystr) (page : Z) (repos : list Repo) (resp : Response)
    : M (list Repo) :=
  data ← json_list resp;
  match data with
  | [] => mret repos
  | _ :: _ =>
      repos' ← lift (append_items owner data repos);
      fetch_loop env fuel url owner (page + 1) repos'
  end.

(** The state in which [main] starts the listing. *)
Definition before_listing (args : Args) (st : State) : State :=
  {| now := now st; served := served st;
     log := log st ++ [Which; Makedirs (arg_dest args);
                       Print (MsgTarget (truthy (arg_org args))
                                (py_or (arg_user args) (arg_org args)));
                       Print MsgFetching] |}.

Section SpecWords.

Variable Pattern : Type.
Variable re_compile : pystr → option Pattern.
Variable re_search : Pattern → pystr → bool.
Variable str_lower : pystr → pystr.

(** The matching predicate as the specification words it: the filters are
    supplied or not, the text is [name + full_name + description], and a
    supplied substring matches when it occurs in that text, case ignored. *)
Definition spec_blob (r : Repo) : pystr :=
  name r ++ full_name r ++ default [] (description r).

Definition spec_included (match_substring match_regex : option pystr)
    (include_archived : bool) (r : Repo) : bool :=
  (bool_decide (match_substring = None) && bool_decide (match_regex = None)
   || match match_substring with
      | Some sub => contains (str_lower sub) (str_lower (spec_blob r))
      | None => false
      end
   || match match_regex with
      | Some p =>
          match re_compile p with
          | Some c => re_search c (spec_blob r)
          | None => false
          end
      | None => false
      end)
  && (include_archived || negb (archived r)).

(** The text made of name, full name and description, joined by line
    breaks; a description that is [None] or empty adds nothing after the
    second line break. *)
Definition joined_by_line_breaks (r : Repo) : pystr :=
  name r ++ [0x0A%N] ++ full_name r ++ [0x0A%N]
  ++ match description r with Some d => d | None => [] end.

(** The predicate of the amended claim: an empty filter string counts as a
    substring that never matches and as a regular expression that is not
    there, and the text has a line per field. *)
Definition included (match_substring match_regex : option pystr)
    (include_archived : bool) (r : Repo) : bool :=
  (bool_decide (match_substring = None) && negb (truthy match_regex)
   || match match_substring with
      | Some sub =>
          bool_decide (sub ≠ [])
          && contains (str_lower sub) (str_lower (joined_by_line_breaks r))
      | None => false
      end
   || match match_regex with
      | Some p =>
          bool_decide (p ≠ [])
          && match re_compile p with
             | Some c => re_search c (joined_by_line_breaks r)
             | None => false
             end
      | None => false
      end)
  && (include_archived || negb (archived r)).

(** What one pass of the loop keeps. *)
Definition keeps (match_substring : option pystr) (compiled_regex : option Pattern)
    (include_archived : bool) (r : Repo) : Prop :=
  negb (negb include_archived && archived r)
  && matched Pattern re_search str_lower match_substring compiled_regex r.

(** The compiled expression, when [re.compile] does not raise. *)
Definition compiled (match_regex : option pystr) : option Pattern :=
  if truthy match_regex then re_compile (fmt match_regex) else None.

End SpecWords.

(** Sample inputs *)

(** [str.lower] on ASCII text. *)
Definition ascii_str_lower (s : pystr) : pystr :=
  (λ c, if between 0x41 0x5A c then (c + 32)%N else c) <$> s.

(** An engine for the runs in which no regular expression is supplied. *)
Definition no_pattern : Type := Empty_set.
Definition no_compile : pystr → option no_pattern := λ _, None.
Definition no_search : no_pattern → pystr → bool := λ c _, match c with end.

Definition response (code : Z) (h : gmap string string) (body : JsonBody) : Response :=
  {| status_code := code; headers := h; text := []; json := body |}.

Definition item (n : string) (is_archived : bool) : Item :=
  Object (OwnerObject (Some (lit "octocat"))) (Some (lit n))
    (Some (lit "octocat/" ++ lit n))
    (Some (lit "git@github.com:octocat/" ++ lit n ++ lit ".git"))
    (Some is_archived) None.

Definition repo (n : string) (is_archived : bool) : Repo :=
  {| owner := Some (lit "octocat"); name := lit n;
     full_name := lit "octocat/" ++ lit n;
     ssh_url := lit "git@github.com:octocat/" ++ lit n ++ lit ".git";
     archived := is_archived; description := None |}.


(** 403 with the quota signal and a reset time. *)
Definition quota_until (reset : string) : Response :=
  response 403 {[ "x-ratelimit-remaining"%string := "0"%string;
                  "x-ratelimit-reset"%string := reset ]} NotJson.

Definition answer (r : Response) : Exchange := {| latency := 0; outcome := Some r |}.

Definition env_of (git : bool) (script : nat → Exchange) : Env :=
  {| git_on_path := git; server := script; makedirs_ok := true;
     has_git_dir := λ _, false; git_starts := λ _, true;
     git_seconds := λ _, 3; git_rc := λ _, 0 |}.

(** A rate-limit answer, a page of two, another rate-limit answer, an empty
    page. *)
Definition sample_script (k : nat) : Exchange :=
  match k with
  | 0%nat => answer (quota_until "1002")
  | 1%nat => answer (response 200 ∅ (JsonList [item "a" false; item "b" true]))
  | 2%nat => answer (quota_until "1100")
  | _ => answer (response 200 ∅ (JsonList []))
  end.


Definition args_with_interval (seconds : Z) : Args :=
  {| arg_user := Some (lit "octocat"); arg_org := None; arg_match := None;
     arg_regex := None; arg_dest := lit "./repos"; arg_interval := seconds;
     arg_include_archived := false; arg_pull_if_exists := false;
     arg_sleep_on_skip := false |}.

End GithubScraping.

(** ** The arXiv paper fetcher: search and the whole run *)

Module ArxivRun.
Import ArxivScraping.

(** *** The world of a run

    Beside the files there are directories; the search request and
    [ET.fromstring] are oracles, and so is whether [os.makedirs] succeeds. *)

Inductive SearchOutcome :=
  | SearchRaises                              (* [requests.get] raised *)
  | SearchResponse (status_code : Z) (text : pystr).

(** The [params] dictionary of [search_papers]. *)
Record SearchParams := {
  search_query : pystr;
  start : Z;
  max_results : Z;
  sortBy : pystr;
  sortOrder : pystr;
}.

Record World := {
  search : pystr → SearchParams → SearchOutcome;  (* by URL and parameters *)
  fromstring : pystr → option Element;            (* [None]: [ParseError] *)
  makedirs_ok : pystr → bool;
}.

Inductive RunExn :=
  | Uncaught (e : Exn)   (* an exception of the code modelled before *)
  | ParseError           (* [ET.fromstring] *)
  | TypeError            (* [', '.join] on a list that holds [None] *)
  | MakedirsError.       (* [os.makedirs] *)

Inductive RunResult (A : Type) :=
  | Returns (a : A)
  | Raises (e : RunExn).
Arguments Returns {A} a.
Arguments Raises {A} e.

Inductive RunMessage :=
  | MsgSearchQuery (query : pystr)        (* "Search query: {query}" *)
  | MsgMaxResults (n : Z)                 (* "Max results: {max_results}" *)
  | MsgSearchError (status : Z)           (* "Search error: {status_code}" *)
  | MsgNoPapers                           (* "No papers found." *)
  | MsgFound (n : nat)                    (* "{len(papers)} papers found." *)
  | MsgIndex (i total : nat)              (* "[{i}/{len(papers)}]" *)
  | MsgTitle (title : pystr)              (* "Title: {title}" *)
  | MsgAuthors (joined : pystr)           (* "Authors: {', '.join(authors)}" *)
  | MsgCompleted (success : Z) (total : nat)
                      (* "Completed: {success_count}/{len(papers)} downloads successful." *)
  | MsgBanner                             (* "arXiv Paper Scraper" *)
  | MsgRule                               (* "==================" *)
  | MsgQuery (query : pystr)              (* "Query: {args.query}" *)
  | MsgOutputDir (path : pystr)           (* "Output directory: {args.output_dir}" *)
  | MsgSortBy (sort_by sort_order : pystr) (* "Sort by: {sort_by} ({sort_order})" *)
  | MsgBlank.

Inductive RunEvent :=
  | Say (m : RunMessage)
  | PathExists (path : pystr)
  | Makedirs (path : pystr)
  | SearchGet (url : pystr) (params : SearchParams)
  | Download (ev : Event)     (* an event of [download_paper] *)
  | Sleep (seconds : Z).

Record RunState := {
  run_files : gmap pystr bytes;
  dirs : gset pystr;
  run_log : list RunEvent;
}.

Definition RunM (A : Type) : Type := RunState → RunResult A * RunState.

#[global] Instance RunM_ret : MRet RunM := λ A a rs, (Returns a, rs).
#[global] Instance RunM_bind : MBind RunM := λ A B k m rs,
  match m rs with
  | (Returns a, rs') => k a rs'
  | (Raises e, rs') => (Raises e, rs')
  end.

Definition run_raise {A} (e : RunExn) : RunM A := λ rs, (Raises e, rs).

Definition run_emit (ev : RunEvent) : RunM unit := λ rs,
  (Returns (), {| run_files := run_files rs; dirs := dirs rs;
                  run_log := run_log rs ++ [ev] |}).

Definition say (m : RunMessage) : RunM unit := run_emit (Say m).

Definition time_sleep (seconds : Z) : RunM unit := run_emit (Sleep seconds).

(** A computation of the downloader, run on the files of the run; what it
    logs is appended to the log of the run. *)
Definition lift_download {A} (m : M A) : RunM A := λ rs,
  let '(r, st) := m {| files := run_files rs; log := [] |} in
  (match r with
   | Ok a => Returns a
   | Raise e => Raises (Uncaught e)
   end,
   {| run_files := files st; dirs := dirs rs;
      run_log := run_log rs ++ (Download <$> log st) |}).

(** The scraper object with the two attributes that [main] may have set
    on it. *)
Record Scraper := {
  core : ArxivScraper;
  sort_by : option pystr;
  sort_order : option pystr;
}.

(** [sep.join(parts)] *)
Fixpoint join (sep : pystr) (parts : list pystr) : pystr :=
  match parts with
  | [] => []
  | [x] => x
  | x :: rest => x ++ sep ++ join sep rest
  end.

Section Run.
Variable isalnum_wide : N → bool.
Variable env : Env.
Variable world : World.

(** [os.path.exists(path)] *)
Definition os_path_exists (path : pystr) : RunM bool := λ rs,
  (Returns (bool_decide (path ∈ dirs rs)
            || bool_decide (is_Some (run_files rs !! path))),
   {| run_files := run_files rs; dirs := dirs rs;
      run_log := run_log rs ++ [PathExists path] |}).

(** [os.makedirs(path)] *)
Definition os_makedirs (path : pystr) : RunM unit := λ rs,
  let rs' := {| run_files := run_files rs; dirs := dirs rs;
                run_log := run_log rs ++ [Makedirs path] |} in
  if makedirs_ok world path
  then (Returns (), {| run_files := run_files rs; dirs := {[path]} ∪ dirs rs;
                       run_log := run_log rs' |})
  else (Raises MakedirsError, rs').

Definition create_download_directory (self : Scraper) : RunM unit :=
  present ← os_path_exists (download_dir (core self));
  if present : bool then mret () else os_makedirs (download_dir (core self)).

(** [requests.get(self.base_url, params=params)] *)
Definition search_get (url : pystr) (params : SearchParams) : RunM (Z * pystr) :=
  _ ← run_emit (SearchGet url params);
  match search world url params with
  | SearchRaises => run_raise (Uncaught RequestException)
  | SearchResponse code text => mret (code, text)
  end.

(** [self.parse_response(response.text)], [ET.fromstring] included. *)
Definition parse_text (xml_content : pystr) : RunM (list Paper) :=
  match fromstring world xml_content with
  | None => run_raise ParseError
  | Some root =>
      match parse_response root with
      | Ok papers => mret papers
      | Raise e => run_raise (Uncaught e)
      end
  end.

Definition search_papers (self : Scraper) (query : pystr) (max_results : Z)
    : RunM (list Paper) :=
  let sort_by := default (lit "relevance") (sort_by self) in
  let sort_order := default (lit "descending") (sort_order self) in
  let params := {| search_query := query; start := 0; max_results := max_results;
                   sortBy := sort_by; sortOrder := sort_order |} in
  response ← search_get (base_url (core self)) params;
  if fst response =? 200 then parse_text (snd response)
  else
    _ ← say (MsgSearchError (fst response));
    mret [].

(** [', '.join(paper['authors'])] *)
Definition join_authors (authors : list (option pystr)) : RunM pystr :=
  match mapM id authors with
  | Some names => mret (join (lit ", ") names)
  | None => run_raise TypeError
  end.

(** The loop over [enumerate(papers, 1)]. *)
Fixpoint download_all (self : Scraper) (total : nat) (i : nat)
    (papers : list Paper) (success_count : Z) : RunM Z :=
  match papers with
  | [] => mret success_count
  | paper :: rest =>
      _ ← say (MsgIndex i total);
      _ ← say (MsgTitle (title paper));
      joined ← join_authors (authors paper);
      _ ← say (MsgAuthors joined);
      ok ← lift_download (download_paper isalnum_wide env (core self) paper);
      let success_count := if ok : bool then success_count + 1 else success_count in
      _ ← time_sleep 1;
      download_all self total (S i) rest success_count
  end.

Definition scrape_and_download (self : Scraper) (query : pystr) (max_results : Z)
    : RunM unit :=
  _ ← say (MsgSearchQuery query);
  _ ← say (MsgMaxResults max_results);
  _ ← create_download_directory self;
  papers ← search_papers self query max_results;
  match papers with
  | [] => say MsgNoPapers
  | _ :: _ =>
      _ ← say (MsgFound (length papers));
      success_count ← download_all self (length papers) 1 papers 0;
      say (MsgCompleted success_count (length papers))
  end.

(** [main] of the arXiv tool, after [parser.parse_args()]. *)
Record ArxivArgs := {
  arg_query : pystr;
  arg_max_results : Z;
  arg_output_dir : pystr;
  arg_sort_by : pystr;
  arg_sort_order : pystr;
}.

Definition main (args : ArxivArgs) : RunM unit :=
  let scraper :=
    {| core := {| base_url := lit "http://export.arxiv.org/api/query";
                  download_dir := arg_output_dir args |};
       sort_by := Some (arg_sort_by args);
       sort_order := Some (arg_sort_order args) |} in
  _ ← say MsgBanner;
  _ ← say MsgRule;
  _ ← say (MsgQuery (arg_query args));
  _ ← say (MsgMaxResults (arg_max_results args));
  _ ← say (MsgOutputDir (arg_output_dir args));
  _ ← say (MsgSortBy (arg_sort_by args) (arg_sort_order args));
  _ ← say MsgBlank;
  scrape_and_download scraper (arg_query args) (arg_max_results args).

(** Whether [download_paper] succeeds for a record: it does not depend on
    the files. *)
Definition downloads (self : Scraper) (paper : Paper) : bool :=
  match (download_paper isalnum_wide env (core self) paper
           {| files := ∅; log := [] |}).1 with
  | Ok true => true
  | _ => false
  end.

End Run.

(** The sleeps and the requests for PDFs of a log, in order. *)
Definition sleeps (l : list RunEvent) : list Z :=
  omap (λ ev, match ev with Sleep s => Some s | _ => None end) l.

(** What [download_paper] logged during a run. *)
Definition downloaded (l : list RunEvent) : list Event :=
  omap (λ ev, match ev with Download e => Some e | _ => None end) l.

(** The URLs requested in a log of [download_paper]. *)
Definition urls (l : list Event) : list (option pystr) :=
  omap (λ ev, match ev with HttpGet u => Some u | _ => None end) l.

Definition pdf_requests (l : list RunEvent) : list (option pystr) :=
  urls (downloaded l).

(** The search requests of a log. *)
Definition searches (l : list RunEvent) : list (pystr * SearchParams) :=
  omap (λ ev, match ev with SearchGet u p => Some (u, p) | _ => None end) l.

Definition all_named (paper : Paper) : Prop :=
  Forall is_Some (authors paper).

(** The request for a PDF that [download_paper] makes for a record: none
    without a link, and none without an identifier. *)
Definition requested (paper : Paper) : option (option pystr) :=
  match arxiv_id paper with
  | Some _ => pdf_url paper
  | None => None
  end.

(** The parameters [search_papers] sends. *)
Definition params_of (self : Scraper) (query : pystr) (max_results : Z)
    : SearchParams :=
  {| search_query := query; start := 0; max_results := max_results;
     sortBy := default (lit "relevance") (sort_by self);
     sortOrder := default (lit "descending") (sort_order self) |}.

(** What the search request of a run is answered with. *)
Definition search_outcome (world : World) (self : Scraper) (query : pystr)
    (max_results : Z) : SearchOutcome :=
  search world (base_url (core self)) (params_of self query max_results).

(** The search is answered with status 200 and a text that parses to
    [papers]. *)
Definition found (world : World) (self : Scraper) (query : pystr)
    (max_results : Z) (papers : list Paper) : Prop :=
  ∃ text root, search_outcome world self query max_results = SearchResponse 200 text
    ∧ fromstring world text = Some root
    ∧ parse_response root = Ok papers.

(** The search raises, or its text does not parse, or [parse_response]
    raises on it. *)
Definition search_fails (world : World) (self : Scraper) (query : pystr)
    (max_results : Z) : Prop :=
  search_outcome world self query max_results = SearchRaises
  ∨ ∃ text, search_outcome world self query max_results = SearchResponse 200 text
      ∧ (fromstring world text = None
         ∨ ∃ root e, fromstring world text = Some root
             ∧ parse_response root = Raise e).

(** [os.path.exists(path)] as a proposition. *)
Definition exists_in (rs : RunState) (path : pystr) : Prop :=
  path ∈ dirs rs ∨ is_Some (run_files rs !! path).

(** The download directory is there or can be made. *)
Definition directory_ready (world : World) (self : Scraper) (rs : RunState)
    : Prop :=
  exists_in rs (download_dir (core self))
  ∨ makedirs_ok world (download_dir (core self)) = true.

(** Sample inputs *)

Definition fresh : RunState := {| run_files := ∅; dirs := ∅; run_log := [] |}.

Definition sample_world (status : Z) (root : Element) : World :=
  {| search := λ _ _, SearchResponse status (lit "<feed/>");
     fromstring := λ _, Some root;
     makedirs_ok := λ _, true |}.

Definition sample_self : Scraper :=
  {| core := sample_scraper; sort_by := None; sort_order := None |}.

(** A server that answers 200 and a disk on which the write fails after
    [n] bytes. *)
Definition env_write_fails (n : nat) : Env :=
  {| http := λ _, Response 200 [x25; x50; x44; x46];
     disk := λ _ _, WriteRaises n |}.

Definition paper_without_id : Paper :=
  {| title := lit "Attention"; authors := []; summary := [];
     arxiv_id := None;
     pdf_url := Some (Some (lit "http://arxiv.org/pdf/2101.00001v1")) |}.

(** A feed of one entry whose author has an empty name element. *)
Definition feed_with_empty_name : Element :=
  el "feed" None
    [ el "entry" None
        [ el "id" (Some (lit "http://arxiv.org/abs/2101.00001v1")) [];
          el "title" (Some (lit "Attention")) [];
          el "author" None [ el "name" None [] ];
          link "application/pdf" "http://arxiv.org/pdf/2101.00001v1" ] ].

End ArxivRun.

(** ** Further vocabulary for the GitHub tool *)

Module GithubRun.
Import GithubScraping.


(** Page indices that start at [p] and from one request to the next stay or
    advance by one. *)
Fixpoint climbs (p : Z) (l : list Z) : Prop :=
  match l with
  | [] => True
  | q :: l' => q = p ∧ (climbs p l' ∨ climbs (p + 1) l')
  end.

(** The git commands and the sleeps of a log, in order. *)
Definition git_commands (l : list Event) : list Event :=
  omap (λ ev, match ev with
              | GitClone _ _ | GitPull _ => Some ev
              | _ => None
              end) l.

Definition sleeps (l : list Event) : list Z :=
  omap (λ ev, match ev with Sleep s => Some s | _ => None end) l.

Section PerRepository.
Variable env : Env.
Variable args : Args.

(** What the loop of [main] does for the repository at position [i]: the
    git command it runs, if any, and whether it sleeps afterwards. *)
Definition git_command (i : nat) (r : Repo) : option Event :=
  let dest := path_join (arg_dest args) (name r) in
  if has_git_dir env i
  then (if arg_pull_if_exists args then Some (GitPull dest) else None)
  else Some (GitClone (ssh_url r) dest).

Definition sleeps_after (i : nat) : bool :=
  negb (has_git_dir env i) || arg_sleep_on_skip args.

(** A git command is run for position [i]. *)
Definition git_runs (i : nat) : bool :=
  negb (has_git_dir env i) || arg_pull_if_exists args.

(** A git command ran for position [i] and returned 0. *)
Definition git_succeeded (i : nat) : bool :=
  git_runs i && (git_rc env i =? 0).

(** The exception that ends the turn for position [i], if any: git is run
    and cannot be started, or a sleep is due and the interval is more than
    [time.sleep] accepts. *)
Definition turn_raises (i : nat) : option Exn :=
  if git_runs i && negb (git_starts env i) then Some OSError
  else if sleeps_after i
          && (SLEEP_MAX_SECONDS
              <? Z.max MIN_CLONE_INTERVAL_SECONDS (arg_interval args))
  then Some OverflowError
  else None.

End PerRepository.


(** Sample inputs *)

Definition quota_until_soon : Response := quota_until "soon".



(** A regular-expression engine for the samples: every pattern compiles and
    is searched for as a literal. *)
Definition literal_compile : pystr → option pystr := Some.
Definition literal_search : pystr → pystr → bool := contains.

(** An unbalanced parenthesis as regular expression. *)
Definition args_bad_regex : Args :=
  {| arg_user := Some (lit "octocat"); arg_org := None; arg_match := None;
     arg_regex := Some (lit "("); arg_dest := lit "./repos"; arg_interval := 10;
     arg_include_archived := false; arg_pull_if_exists := false;
     arg_sleep_on_skip := false |}.

(** [--user ""] *)
Definition args_empty_user : Args :=
  {| arg_user := Some []; arg_org := None; arg_match := None;
     arg_regex := None; arg_dest := lit "./repos"; arg_interval := 10;
     arg_include_archived := false; arg_pull_if_exists := false;
     arg_sleep_on_skip := false |}.

Definition env_no_makedirs : Env :=
  {| git_on_path := true; server := sample_script; makedirs_ok := false;
     has_git_dir := λ _, false; git_starts := λ _, true;
     git_seconds := λ _, 3; git_rc := λ _, 0 |}.

End GithubRun.

(** * Properties *)

(** ** Strings *)

Module PyStrFacts.

Lemma rstrip_nil_iff s : rstrip s = [] ↔ Forall (λ c, isspace c = true) s.
Proof.
  induction s as [|c s IH]; simpl.
  - split; [constructor | done].
  - destruct (rstrip s) as [|d r] eqn:E.
    + destruct (isspace c) eqn:Hc; split; intros H; try done.
      * constructor; [done | by apply IH].
      * inversion H; congruence.
    + split; [done |]. intros H. inversion H as [|? ? _ Hs]; subst.
      apply IH in Hs. done.
Qed.

(** [rstrip] only removes characters at the end. *)
Lemma rstrip_prefix s : ∃ tail, s = rstrip s ++ tail ∧ Forall (λ c, isspace c = true) tail.
Proof.
  induction s as [|c s (tail & Hs & Ht)]; simpl.
  - by exists [].
  - destruct (rstrip s) as [|d r] eqn:E.
    + destruct (isspace c) eqn:Hc.
      * exists (c :: s). split; [done |]. constructor; [done |].
        by apply rstrip_nil_iff.
      * exists s. split; [done |]. by apply rstrip_nil_iff.
    + exists tail. split; [| done]. simpl in *. by f_equal.
Qed.


Lemma rstrip_Forall (P : N → Prop) s : Forall P s → Forall P (rstrip s).
Proof.
  destruct (rstrip_prefix s) as (tail & Hs & _). intros H.
  rewrite Hs in H. by apply Forall_app in H as [H _].
Qed.

(** The result of [rstrip] does not end in white space. *)
Lemma rstrip_last s c : last (rstrip s) = Some c → isspace c = false.
Proof.
  induction s as [|d s IH]; simpl; [done |].
  destruct (rstrip s) as [|e r] eqn:E.
  - destruct (isspace d) eqn:Hd; simpl; [done |]. by intros [= <-].
  - rewrite last_cons. destruct (last (e :: r)) eqn:L.
    + intros [= <-]. by apply IH.
    + by apply last_None in L.
Qed.

(** A string that does not end in white space is left alone. *)
Lemma rstrip_id s : (∀ c, last s = Some c → isspace c = false) → rstrip s = s.
Proof.
  induction s as [|d s IH]; simpl; [done |]. intros H.
  destruct s as [|e s'].
  - simpl. rewrite (H d); done.
  - rewrite IH; [done |]. intros c Hc. apply H.
    rewrite last_cons. by rewrite Hc.
Qed.

Lemma rstrip_idemp s : rstrip (rstrip s) = rstrip s.
Proof. apply rstrip_id, rstrip_last. Qed.

Lemma filter_all {A} (P : A → Prop) `{!∀ x, Decision (P x)} (l : list A) :
  Forall P l → filter P l = l.
Proof.
  induction 1 as [|x l Hx _ IH]; [done |].
  rewrite filter_cons_True; [| done]. by rewrite IH.
Qed.

Lemma filter_Forall {A} (P : A → Prop) `{!∀ x, Decision (P x)} (l : list A) :
  Forall P (filter P l).
Proof. apply Forall_forall. intros x Hx. by apply list_elem_of_filter in Hx as [? _]. Qed.

(** [split] of a string without the separator is that string, and only
    such a string is split into one piece. *)
Lemma split_nonempty sep s : split sep s ≠ [].
Proof.
  induction s as [|c s IH]; simpl; [done |].
  destruct (c =? sep)%N; [done |]. by destruct (split sep s).
Qed.

Lemma split_no_sep sep s : sep ∉ s → split sep s = [s].
Proof.
  induction s as [|c s IH]; simpl; [done |]. intros H.
  apply not_elem_of_cons in H as [Hc Hs].
  destruct (N.eqb_spec c sep) as [-> | _]; [done |]. by rewrite IH.
Qed.

Lemma split_singleton sep s p : split sep s = [p] → (sep ∉ s) ∧ p = s.
Proof.
  revert p. induction s as [|c s IH]; simpl; intros p.
  - intros [= <-]. split; [apply not_elem_of_nil | done].
  - destruct (N.eqb_spec c sep) as [-> | Hc].
    + intros [= _ H]. by apply split_nonempty in H.
    + destruct (split sep s) as [|q qs] eqn:E; [by apply split_nonempty in E |].
      intros [= <- ->]. destruct (IH q eq_refl) as [Hs ->].
      split; [| done]. by apply not_elem_of_cons.
Qed.

(** The last piece holds no separator; the string is that piece, or ends
    with a separator followed by it. *)
Lemma split_last sep s :
  ∃ before, s = before ++ last_item [] (split sep s)
    ∧ (sep ∉ last_item [] (split sep s))
    ∧ (before = [] ∨ last before = Some sep).
Proof.
  unfold last_item. induction s as [|c s (before & Hs & Hsep & Hb)]; simpl.
  - exists []. split_and!; [done | apply not_elem_of_nil | by left].
  - destruct (split sep s) as [|p ps] eqn:E; [by apply split_nonempty in E |].
    destruct (N.eqb_spec c sep) as [-> | Hc].
    + exists (sep :: before). split_and!; [simpl; by f_equal | done |].
      right. destruct Hb as [-> | Hb]; [done |].
      rewrite last_cons. by rewrite Hb.
    + destruct ps as [|q qs].
      * apply split_singleton in E as [Hs' ->]. simpl.
        exists []. split_and!; [done | by apply not_elem_of_cons | by left].
      * exists (c :: before). split_and!; [simpl; by f_equal | done |].
        right. destruct Hb as [-> | Hb].
        -- rewrite app_nil_l in Hs. rewrite <- Hs in Hsep.
           by rewrite (split_no_sep _ _ Hsep) in E.
        -- rewrite last_cons. by rewrite Hb.
Qed.

End PyStrFacts.

(** ** The arXiv paper fetcher *)

Module ArxivFacts.
Import ArxivScraping PyStrFacts.

(** *** [parse_response] *)

Lemma author_names_omap l :
  author_names l = text <$> omap (find (atom "name")) l.
Proof.
  induction l as [|a l IH]; simpl; [done |].
  destruct (find (atom "name") a); simpl; by rewrite IH.
Qed.

Lemma first_pdf_link_none l :
  Forall (λ link, ¬ is_pdf_link link) l → first_pdf_link l = None.
Proof.
  induction 1 as [|x l Hx _ IH]; simpl; [done |].
  by rewrite decide_False.
Qed.

Lemma first_pdf_link_first before link after :
  Forall (λ l, ¬ is_pdf_link l) before → is_pdf_link link →
  first_pdf_link (before ++ link :: after) = Some (get (lit "href") link).
Proof.
  intros Hb Hl. induction Hb as [|x l Hx _ IH]; simpl.
  - by rewrite decide_True.
  - by rewrite decide_False.
Qed.

Lemma text_strip_ok e :
  has_text (Some e) = true → ∃ t, text e = Some t ∧ text_strip e = Ok (strip t).
Proof.
  unfold has_text, text_strip. intros [t Ht]%bool_decide_eq_true.
  exists t. by rewrite Ht.
Qed.

(** One entry whose elements carry text makes one record. *)
Lemma parse_entry_ok entry :
  texts_present entry = true →
  ∃ p, parse_entry entry = Ok p ∧ describes entry p.
Proof.
  unfold texts_present. intros [[Ht Hs]%andb_prop Hi]%andb_prop.
  unfold parse_entry.
  destruct (find (atom "title") entry) as [te|] eqn:Et;
  destruct (find (atom "summary") entry) as [se|] eqn:Es;
  destruct (find (atom "id") entry) as [ie|] eqn:Ei;
  repeat match goal with
    | H : has_text (Some ?e) = true |- _ =>
        let t := fresh "t" in let Ht := fresh "Ht" in let Hr := fresh "Hr" in
        pose proof (text_strip_ok e H) as (t & Ht & Hr); clear H;
        try rewrite Hr; try rewrite Ht
    end; simpl;
  (eexists; split; [reflexivity |]);
  (split; simpl; rewrite ?Et, ?Es, ?Ei;
   first
   [ done
   | by (intros ? [= <-]; eauto)
   | apply author_names_omap
   | intros ? [= <-];
     match goal with
     | H : text ?e = Some ?x |- context [split _ ?x] =>
         destruct (split_last 0x2F%N x) as (before & ? & ? & ?);
         exists x, before, (last_item [] (split 0x2F%N x)); by split_and!
     end
   | apply first_pdf_link_none
   | intros before l after ->; apply first_pdf_link_first ]).
Qed.

(** An entry with an element without text makes [parse_entry] raise. *)
Lemma parse_entry_raises entry :
  texts_present entry = false → parse_entry entry = Raise AttributeError.
Proof.
  unfold texts_present, parse_entry, has_text, text_strip.
  destruct (find (atom "title") entry) as [[? ? [?|] ?]|];
  destruct (find (atom "summary") entry) as [[? ? [?|] ?]|];
  destruct (find (atom "id") entry) as [[? ? [?|] ?]|]; simpl; try done;
  rewrite ?bool_decide_eq_true_2; simpl; eauto; done.
Qed.

(** C1, as stated, fails: a feed whose entry has an empty summary element
    ([<summary/>], which ElementTree gives [text = None]) makes
    [parse_response] raise [AttributeError]. *)
Lemma parse_response_empty_summary_raises :
  parse_response feed_with_empty_summary = Raise AttributeError.
Proof. vm_compute. reflexivity. Qed.

(** C1 (amended): for every document in which the title, summary and id
    elements that the parser reads carry text, [parse_response] returns, with
    exactly one record per entry element, in document order. A missing
    title gives "Unknown Title", a missing summary gives the empty string, an
    entry without a link of type application/pdf has no [pdf_url] and the
    first such link wins otherwise; authors without a name element are
    skipped. *)
Theorem parse_response_total root :
  forallb texts_present (findall (atom "entry") root) = true →
  ∃ papers, parse_response root = Ok papers
    ∧ Forall2 describes (findall (atom "entry") root) papers.
Proof.
  unfold parse_response. generalize (findall (atom "entry") root) as entries.
  induction entries as [|entry entries IH]; simpl.
  - intros _. exists []. split; [done | constructor].
  - intros [He Hes]%andb_prop.
    destruct (parse_entry_ok entry He) as (p & Hp & Hd).
    destruct (IH Hes) as (ps & Hps & Hds).
    exists (p :: ps). rewrite Hp. simpl. rewrite Hps. simpl.
    split; [done | by constructor].
Qed.

(** The theorem at the sample feed. *)
Lemma parse_response_total_witness :
  forallb texts_present (findall (atom "entry") sample_feed) = true
  ∧ ∃ papers, parse_response sample_feed = Ok papers
      ∧ Forall2 describes (findall (atom "entry") sample_feed) papers.
Proof.
  split; [reflexivity | apply (parse_response_total sample_feed); reflexivity].
Defined.

(** The condition is exact: with one such element without text, the whole
    call raises. *)
Lemma parse_response_raises root :
  forallb texts_present (findall (atom "entry") root) = false →
  parse_response root = Raise AttributeError.
Proof.
  unfold parse_response. generalize (findall (atom "entry") root) as entries.
  induction entries as [|entry entries IH]; simpl; [done |].
  destruct (texts_present entry) eqn:He; simpl.
  - intros Hes. destruct (parse_entry_ok entry He) as (p & -> & _).
    simpl. by rewrite (IH Hes).
  - intros _. by rewrite (parse_entry_raises entry He).
Qed.

(** *** [safe_title] *)

Section SafeTitle.
Variable isalnum_wide : N → bool.


Lemma safe_title_kept title :
  Forall (λ c, kept isalnum_wide c) (safe_title isalnum_wide title).
Proof. unfold safe_title. apply Forall_take, rstrip_Forall, filter_Forall. Qed.



End SafeTitle.




(** *** [download_paper] *)

Ltac run_download :=
  unfold download_paper, try_except, get_arxiv_id, requests_get, write_file,
    print, emit, store, raise, mbind, M_bind, mret, M_ret; cbn.

Ltac settle :=
  repeat match goal with
    | |- _ ↔ _ => split
    | |- _ → _ => intro
    | |- ∀ _, _ => intro
    | H : ∃ _, _ |- _ => destruct H
    | H : _ ∧ _ |- _ => destruct H
    end;
  simplify_eq; try done; try congruence.

(** C7: on a record without [pdf_url], [download_paper] reports
    "PDF link not found" and returns [False], with no request and no file
    touched; on a record with one it returns [True] exactly when the
    response has status 200 and the whole body was written to the file, and
    [False] on any other status and on any exception. *)
Theorem download_paper_outcome isalnum_wide env self paper st :
  (pdf_url paper = None →
     prefix_of (MsgPdfLinkNotFound (title paper)) = lit "PDF link not found: "
     ∧ is_io (Print (MsgPdfLinkNotFound (title paper))) = false
     ∧ download_paper isalnum_wide env self paper st
       = (Ok false,
          {| files := files st;
             log := log st ++ [Print (MsgPdfLinkNotFound (title paper))] |}))
  ∧ (is_Some (pdf_url paper) →
     ∃ b st', download_paper isalnum_wide env self paper st = (Ok b, st')
       ∧ (b = true ↔
          ∃ path body, download_succeeds isalnum_wide env self paper path body)
       ∧ (∀ path body, download_succeeds isalnum_wide env self paper path body →
            files st' = <[path := body]> (files st))
       ∧ (∀ u, pdf_url paper = Some (Some u) → http env u = GetRaises →
            b = false ∧ files st' = files st)
       ∧ (∀ u code body, pdf_url paper = Some (Some u) →
            http env u = Response code body → code ≠ 200 →
            b = false ∧ files st' = files st)
       ∧ (∀ i u body, arxiv_id paper = Some i → pdf_url paper = Some (Some u) →
            http env u = Response 200 body →
            disk env (filepath isalnum_wide self paper i) body ≠ Written →
            b = false)).
Proof.
  split.
  - intros H. split_and!; [done.. |]. run_download. by rewrite H.
  - intros [url Hurl]. run_download. rewrite Hurl. unfold download_succeeds.
    destruct (arxiv_id paper) as [i|] eqn:Hi; cbn;
      [| eexists _, _; split; [done |]; split_and!; settle].
    destruct url as [u|]; cbn;
      [| eexists _, _; split; [done |]; split_and!; settle].
    destruct (http env u) as [|code body] eqn:Hu; cbn;
      [eexists _, _; split; [done |]; split_and!; settle |].
    destruct (Z.eqb_spec code 200) as [-> | Hcode]; cbn;
      [| eexists _, _; split; [done |]; split_and!; settle].
    fold (filepath isalnum_wide self paper i).
    destruct (disk env (filepath isalnum_wide self paper i) body) eqn:Hd; cbn;
      (eexists _, _; split; [done |]); split_and!; settle.
    + by eexists _, _, _, _.
    + cbn. congruence.
Qed.

(** The theorem at a record without a PDF link and at one with a link that
    the sample server answers with 200. *)
Lemma download_paper_outcome_witness :
  (pdf_url paper_without_pdf = None
   ∧ download_paper no_table sample_env sample_scraper paper_without_pdf
       empty_state
     = (Ok false,
        {| files := ∅;
           log := [Print (MsgPdfLinkNotFound (lit "Attention"))] |}))
  ∧ (is_Some (pdf_url sample_paper)
     ∧ ∃ b st', download_paper no_table sample_env sample_scraper sample_paper
                  empty_state = (Ok b, st')
         ∧ (b = true ↔
            ∃ path body,
              download_succeeds no_table sample_env sample_scraper sample_paper
                path body)).
Proof.
  split.
  - split; [reflexivity |].
    exact (proj2 (proj2 (proj1 (download_paper_outcome no_table sample_env
                                  sample_scraper paper_without_pdf empty_state)
                          eq_refl))).
  - assert (is_Some (pdf_url sample_paper)) as H by (by eexists).
    split; [exact H |].
    destruct (proj2 (download_paper_outcome no_table sample_env sample_scraper
                       sample_paper empty_state) H) as (b & st' & Hr & Hb & _).
    by exists b, st'.
Defined.

End ArxivFacts.

(** ** The GitHub repository fetcher *)

Module GithubFacts.
Import GithubScraping GithubRun.

(** *** [request_with_rate_limit] *)

Section Requests.
Variable env : Env.

Ltac run_request :=
  unfold requests_get, int_of, time_time, time_sleep, check_status, print, emit,
    raise, mbind, M_bind, mret, M_ret; cbn.

Lemma time_sleep_ok seconds st :
  0 ≤ seconds ≤ SLEEP_MAX_SECONDS →
  time_sleep seconds st
  = (Ok (), {| now := now st + seconds; served := served st;
               log := log st ++ [Sleep seconds] |}).
Proof.
  intros H. unfold time_sleep.
  destruct (Z.ltb_spec SLEEP_MAX_SECONDS seconds); [lia |].
  destruct (Z.ltb_spec seconds 0); [lia | done].
Qed.

Lemma time_sleep_overflow seconds st :
  SLEEP_MAX_SECONDS < seconds → time_sleep seconds st = (Raise OverflowError, st).
Proof.
  intros H. unfold time_sleep.
  by destruct (Z.ltb_spec SLEEP_MAX_SECONDS seconds); [| lia].
Qed.

(** The sleeps of the program are never negative. *)
Lemma time_sleep_cases seconds st :
  0 ≤ seconds →
  time_sleep seconds st = (Raise OverflowError, st)
  ∨ time_sleep seconds st
    = (Ok (), {| now := now st + seconds; served := served st;
                 log := log st ++ [Sleep seconds] |}).
Proof.
  intros H. destruct (Z.lt_ge_cases SLEEP_MAX_SECONDS seconds).
  - left. by apply time_sleep_overflow.
  - right. apply time_sleep_ok. lia.
Qed.

Lemma rate_limit_signal_true r :
  rate_limit_signal r →
  (status_code r =? 403)
  && bool_decide (headers_get "X-RateLimit-Remaining" r = Some "0"%string) = true.
Proof.
  intros [-> Hr]. by rewrite bool_decide_eq_true_2.
Qed.

Lemma rate_limit_signal_false r :
  ¬ rate_limit_signal r →
  (status_code r =? 403)
  && bool_decide (headers_get "X-RateLimit-Remaining" r = Some "0"%string) = false.
Proof.
  intros H. apply andb_false_iff.
  destruct (Z.eqb_spec (status_code r) 403) as [Hs | Hs]; [| by left].
  right. apply bool_decide_eq_false_2. intros Hr. by apply H.
Qed.

(** The call up to the sleep, on a rate-limit answer with a reset time. *)
Lemma request_to_sleep fuel url params st r reset n :
  outcome (server env (served st)) = Some r →
  rate_limit_signal r →
  headers_get "X-RateLimit-Reset" r = Some reset → py_int reset = Some n →
  request_with_rate_limit env (S fuel) url params st
  = (time_sleep (sleep_seconds st (server env (served st)) n)
     ≫= λ _, request_with_rate_limit env fuel url params)
      (after_refused st (server env (served st)) n url params).
Proof.
  intros Ho Hsig Hreset Hn. cbn [request_with_rate_limit].
  unfold requests_get, int_of, time_time, check_status, print, emit, raise.
  unfold mbind at 1. unfold M_bind at 1. rewrite Ho.
  rewrite (rate_limit_signal_true r Hsig), Hreset, Hn.
  unfold after_refused, sleep_seconds, mbind, M_bind, mret, M_ret.
  cbn -[time_sleep request_with_rate_limit]. by rewrite <- !app_assoc.
Qed.

(** A rate-limit answer with a reset time: sleep, then the same call
    again. *)
Lemma request_waits fuel url params st r reset n :
  outcome (server env (served st)) = Some r →
  rate_limit_signal r →
  headers_get "X-RateLimit-Reset" r = Some reset → py_int reset = Some n →
  sleep_seconds st (server env (served st)) n ≤ SLEEP_MAX_SECONDS →
  request_with_rate_limit env (S fuel) url params st
  = request_with_rate_limit env fuel url params
      (after_wait st (server env (served st)) n url params).
Proof.
  intros Ho Hsig Hreset Hn Hle.
  rewrite (request_to_sleep fuel url params st r reset n Ho Hsig Hreset Hn).
  unfold mbind, M_bind. rewrite time_sleep_ok by (unfold sleep_seconds in *; lia).
  unfold after_wait, after_refused. cbn. by rewrite <- !app_assoc.
Qed.

(** A wait that [time.sleep] refuses ends the call, after the message. *)
Lemma request_refused fuel url params st r reset n :
  outcome (server env (served st)) = Some r →
  rate_limit_signal r →
  headers_get "X-RateLimit-Reset" r = Some reset → py_int reset = Some n →
  SLEEP_MAX_SECONDS < sleep_seconds st (server env (served st)) n →
  request_with_rate_limit env (S fuel) url params st
  = (Raise OverflowError, after_refused st (server env (served st)) n url params).
Proof.
  intros Ho Hsig Hreset Hn Hlt.
  rewrite (request_to_sleep fuel url params st r reset n Ho Hsig Hreset Hn).
  unfold mbind, M_bind. by rewrite time_sleep_overflow.
Qed.

(** A reset time that is not an integer ends the call. *)
Lemma request_reset_not_integer fuel url params st r reset :
  outcome (server env (served st)) = Some r →
  rate_limit_signal r →
  headers_get "X-RateLimit-Reset" r = Some reset → py_int reset = None →
  request_with_rate_limit env (S fuel) url params st
  = (Raise ValueError, after_get st (server env (served st)) url params).
Proof.
  intros Ho Hsig Hreset Hn. cbn [request_with_rate_limit]. run_request.
  rewrite Ho. cbn. rewrite (rate_limit_signal_true r Hsig), Hreset. cbn.
  by rewrite Hn.
Qed.

(** A rate-limit answer without a reset time is an error like any other. *)
Lemma request_ends fuel url params st r :
  outcome (server env (served st)) = Some r →
  ¬ rate_limit_signal r ∨ headers_get "X-RateLimit-Reset" r = None →
  request_with_rate_limit env (S fuel) url params st
  = (if 400 <=? status_code r
     then Raise (RuntimeError_api (status_code r) (text r))
     else Ok r,
     after_get st (server env (served st)) url params).
Proof.
  intros Ho H. cbn [request_with_rate_limit]. run_request. rewrite Ho. cbn.
  destruct H as [H | H].
  - rewrite (rate_limit_signal_false r H). by destruct (400 <=? status_code r).
  - rewrite H.
    destruct ((status_code r =? 403) && _); by destruct (400 <=? status_code r).
Qed.

(** One turn of the loop of the call, by cases on the answer. *)
Lemma request_cases fuel url params st :
  let x := server env (served st) in
  (∃ res, request_with_rate_limit env (S fuel) url params st
          = (res, after_get st x url params)
     ∧ ∀ r, res = Ok r → outcome x = Some r ∧ status_code r < 400)
  ∨ (∃ n, request_with_rate_limit env (S fuel) url params st
          = (Raise OverflowError, after_refused st x n url params))
  ∨ (∃ n, request_with_rate_limit env (S fuel) url params st
          = request_with_rate_limit env fuel url params
              (after_wait st x n url params)).
Proof.
  intros x. subst x.
  destruct (outcome (server env (served st))) as [r|] eqn:Ho.
  2: { left. exists (Raise RequestException). split; [| done].
       cbn [request_with_rate_limit]. run_request. by rewrite Ho. }
  destruct (decide (rate_limit_signal r)) as [Hsig | Hsig].
  2: { left. eexists. split; [by apply request_ends; [| left] |].
       intros r0. destruct (Z.leb_spec 400 (status_code r)); [done |].
       by intros [= <-]. }
  destruct (headers_get "X-RateLimit-Reset" r) as [reset|] eqn:Hreset.
  2: { left. eexists. split; [by apply request_ends; [| right] |].
       intros r0. destruct (Z.leb_spec 400 (status_code r)); [done |].
       by intros [= <-]. }
  destruct (py_int reset) as [n|] eqn:Hn.
  2: { left. exists (Raise ValueError). split; [| done].
       by eapply request_reset_not_integer. }
  destruct (Z.lt_ge_cases SLEEP_MAX_SECONDS
              (sleep_seconds st (server env (served st)) n)).
  - right. left. exists n. by eapply request_refused.
  - right. right. exists n. eapply request_waits; [done.. | lia].
Qed.



End Requests.




(** *** [filter_repos] *)

Section Filter.
Variable Pattern : Type.
Variable re_compile : pystr → option Pattern.
Variable re_search : Pattern → pystr → bool.
Variable str_lower : pystr → pystr.

Abbreviation filter_repos := (filter_repos Pattern re_compile re_search str_lower).
Abbreviation matched := (matched Pattern re_search str_lower).
Abbreviation filter_loop := (filter_loop Pattern re_search str_lower).
Abbreviation included := (included Pattern re_compile re_search str_lower).
Abbreviation keeps := (keeps Pattern re_search str_lower).
Abbreviation compiled := (compiled Pattern re_compile).

Lemma filter_loop_filter ms cre ia repos filtered :
  filter_loop ms cre ia repos filtered = filtered ++ filter (keeps ms cre ia) repos.
Proof.
  revert filtered. induction repos as [|r repos IH]; intros filtered.
  - cbn. by rewrite app_nil_r.
  - cbn [GithubScraping.filter_loop].
    destruct (negb ia && archived r) eqn:Ha.
    { rewrite filter_cons_False; [apply IH |].
      unfold GithubScraping.keeps. rewrite Ha. cbn. tauto. }
    destruct (matched ms cre r) eqn:Hm.
    + rewrite filter_cons_True
        by (unfold GithubScraping.keeps; rewrite Ha, Hm; cbn; tauto).
      by rewrite IH, <- app_assoc.
    + rewrite filter_cons_False; [apply IH |].
      unfold GithubScraping.keeps. rewrite Ha, Hm. cbn. tauto.
Qed.

Lemma filter_repos_ok repos ms mr ia ifk :
  truthy mr = false ∨ is_Some (re_compile (fmt mr)) →
  filter_repos repos ms mr ia ifk = Ok (filter (keeps ms (compiled mr) ia) repos).
Proof.
  unfold GithubScraping.filter_repos, GithubScraping.compiled. intros H.
  destruct (truthy mr) eqn:Hmr; cbn.
  - destruct H as [H | [c Hc]]; [done |]. rewrite Hc. cbn.
    by rewrite filter_loop_filter.
  - by rewrite filter_loop_filter.
Qed.

Lemma filter_repos_raises repos ms mr ia ifk :
  truthy mr = true → re_compile (fmt mr) = None →
  filter_repos repos ms mr ia ifk = Raise ReError.
Proof.
  unfold GithubScraping.filter_repos. intros -> ->. done.
Qed.

Lemma keeps_included ms mr ia r :
  truthy mr = false ∨ is_Some (re_compile (fmt mr)) →
  keeps ms (compiled mr) ia r ↔ included ms mr ia r = true.
Proof.
  unfold GithubScraping.keeps, GithubScraping.included, GithubScraping.compiled,
    GithubScraping.matched.
  change (joined_by_line_breaks r) with (text_blob r).
  rewrite Is_true_true. intros H.
  destruct ms as [[|c sub]|], mr as [[|d p]|]; cbn in *;
    rewrite ?bool_decide_eq_true_2, ?bool_decide_eq_false_2 by done; cbn;
    try (destruct H as [H | [? H]]; [done | rewrite H; cbn]);
    repeat match goal with
      | |- context [contains ?a ?b] => destruct (contains a b); cbn
      | |- context [re_search ?a ?b] => destruct (re_search a b); cbn
      end;
    destruct ia, (archived r); cbn; done.
Qed.

Lemma regex_cases (mr : option pystr) :
  (truthy mr = true ∧ re_compile (fmt mr) = None)
  ∨ (truthy mr = false ∨ is_Some (re_compile (fmt mr))).
Proof.
  destruct (truthy mr); [| by right; left].
  destruct (re_compile (fmt mr)); [right; right; by eexists | by left].
Qed.

(** C5: the filter returns a sub-sequence of its input in the input's order;
    filtering its result again with the same configuration changes nothing
    (and raises again when the first pass raised on the regular expression);
    with neither a substring nor a regular expression the result is the input
    without its archived repositories, or the input itself when archived
    ones are included. *)
Theorem filter_repos_idempotent repos ms mr ia ifk :
  (filter_repos repos ms mr ia ifk ≫= λ kept, filter_repos kept ms mr ia ifk)
  = filter_repos repos ms mr ia ifk
  ∧ (∀ kept, filter_repos repos ms mr ia ifk = Ok kept → kept `sublist_of` repos)
  ∧ filter_repos repos None None ia ifk
    = Ok (filter (λ r, ia = true ∨ archived r = false) repos)
  ∧ filter_repos repos None None true ifk = Ok repos.
Proof.
  assert (filter_repos repos None None ia ifk
          = Ok (filter (λ r, ia = true ∨ archived r = false) repos)) as Hnone.
  { rewrite filter_repos_ok by (by left). f_equal.
    apply list_filter_iff. intros r.
    unfold GithubScraping.keeps, GithubScraping.matched. cbn.
    destruct ia, (archived r); cbn; intuition discriminate. }
  split_and!.
  - destruct (regex_cases mr) as [[Ht Hc] | H].
    + by rewrite (filter_repos_raises repos ms mr ia ifk Ht Hc).
    + rewrite (filter_repos_ok repos ms mr ia ifk H). cbn.
      rewrite (filter_repos_ok _ ms mr ia ifk H). f_equal.
      by apply list_filter_filter_l.
  - intros kept. destruct (regex_cases mr) as [[Ht Hc] | H].
    + by rewrite (filter_repos_raises repos ms mr ia ifk Ht Hc).
    + rewrite (filter_repos_ok repos ms mr ia ifk H). intros [= <-].
      apply sublist_filter.
  - exact Hnone.
  - rewrite filter_repos_ok by (by left). f_equal.
    apply PyStrFacts.filter_all, Forall_forall. intros r _.
    unfold GithubScraping.keeps, GithubScraping.matched. by cbn.
Qed.

(** C6 (amended): a regular expression that is not empty and does not
    compile makes the filter raise; otherwise every record is kept exactly
    when it is not an archived one left out by the flag and (no substring
    filter is supplied and the regular expression is absent or empty) or
    (the substring filter is not empty and occurs, case ignored, in the text
    made of name, full_name and description joined by line breaks) or (the
    regular expression is not empty and matches that text). *)
Theorem filter_repos_included repos ms mr ia ifk :
  (truthy mr = true → re_compile (fmt mr) = None →
     filter_repos repos ms mr ia ifk = Raise ReError)
  ∧ (truthy mr = false ∨ is_Some (re_compile (fmt mr)) →
     filter_repos repos ms mr ia ifk
     = Ok (filter (λ r, included ms mr ia r = true) repos)).
Proof.
  split.
  - intros Ht Hc. by apply filter_repos_raises.
  - intros H. rewrite (filter_repos_ok repos ms mr ia ifk H). f_equal.
    apply list_filter_iff. intros r. by apply keeps_included.
Qed.

(** C9: the fork option changes nothing. *)
Theorem include_forks_ignored repos ms mr ia :
  filter_repos repos ms mr ia true = filter_repos repos ms mr ia false.
Proof. reflexivity. Qed.

(** C10: an empty substring filter without a regular expression drops every
    repository. *)
Theorem empty_substring_drops_all repos ia ifk :
  filter_repos repos (Some []) None ia ifk = Ok [].
Proof.
  rewrite filter_repos_ok by (by left). f_equal.
  induction repos as [|r repos IH]; [done |].
  rewrite filter_cons_False; [done |].
  unfold GithubScraping.keeps, GithubScraping.matched. cbn.
  rewrite andb_false_r. cbn. tauto.
Qed.

End Filter.

(** C6, as stated, fails: with the empty string as substring filter the
    predicate of the specification holds of every repository and the code
    keeps none; and a substring that runs from the name into the full name
    occurs in [name + full_name + description] but not in the text the code
    searches, which has a line break between the fields. *)
Lemma spec_included_counterexample :
  spec_included no_pattern no_compile no_search ascii_str_lower
    (Some []) None false (repo "hello" false) = true
  ∧ filter_repos no_pattern no_compile no_search ascii_str_lower
      [repo "hello" false] (Some []) None false true = Ok []
  ∧ spec_included no_pattern no_compile no_search ascii_str_lower
      (Some (lit "hellooctocat")) None false (repo "hello" false) = true
  ∧ filter_repos no_pattern no_compile no_search ascii_str_lower
      [repo "hello" false] (Some (lit "hellooctocat")) None false true = Ok [].
Proof. by vm_compute. Qed.

(** The theorem at an unbalanced parenthesis, which does not compile, and at
    a substring in capitals that occurs in the second line of the text. *)
Lemma filter_repos_included_witness :
  filter_repos no_pattern no_compile no_search ascii_str_lower
    [repo "hello" false] None (Some (lit "(")) false true = Raise ReError
  ∧ filter_repos no_pattern no_compile no_search ascii_str_lower
      [repo "hello" false; repo "world" false] (Some (lit "OCTOCAT/HELLO")) None
      false true
    = Ok [repo "hello" false].
Proof.
  split.
  - exact (proj1 (filter_repos_included no_pattern no_compile no_search
             ascii_str_lower [repo "hello" false] None (Some (lit "(")) false
             true) eq_refl eq_refl).
  - rewrite (proj2 (filter_repos_included no_pattern no_compile no_search
               ascii_str_lower [repo "hello" false; repo "world" false]
               (Some (lit "OCTOCAT/HELLO")) None false true)
               (or_introl eq_refl)).
    by vm_compute.
Defined.

(** The theorem at three repositories, one of them archived, and no filter. *)
Lemma filter_repos_idempotent_witness :
  filter_repos no_pattern no_compile no_search ascii_str_lower
    [repo "a" false; repo "b" true; repo "c" false] None None false true
  = Ok [repo "a" false; repo "c" false]
  ∧ [repo "a" false; repo "c" false]
    `sublist_of` [repo "a" false; repo "b" true; repo "c" false].
Proof.
  assert (filter_repos no_pattern no_compile no_search ascii_str_lower
            [repo "a" false; repo "b" true; repo "c" false] None None false true
          = Ok [repo "a" false; repo "c" false]) as H by reflexivity.
  split; [exact H |].
  exact (proj1 (proj2 (filter_repos_idempotent no_pattern no_compile no_search
    ascii_str_lower [repo "a" false; repo "b" true; repo "c" false]
    None None false true)) _ H).
Defined.

(** *** [fetch_all_repos] *)

Section Listing.
Variable env : Env.
Variable url : pystr.
Variable owner : option pystr.

Lemma bind_ret {A B} (a : A) (k : A → M B) st : (mret a ≫= k) st = k a st.
Proof. reflexivity. Qed.

Lemma bind_lift_ok {A B} (a : A) (k : A → M B) st : (lift (Ok a) ≫= k) st = k a st.
Proof. reflexivity. Qed.

Lemma fetch_loop_unfold fuel page repos st :
  fetch_loop env (S fuel) url owner page repos st
  = (request_with_rate_limit env (S fuel) url (page_params page)
     ≫= handle_page env fuel url owner page repos) st.
Proof. reflexivity. Qed.

Lemma append_items_ok items repos decoded :
  Forall2 (λ item r, repo_of_item owner item = Ok r) items decoded →
  append_items owner items repos = Ok (repos ++ decoded).
Proof.
  intros H. revert repos. induction H as [|item r items decoded Hr _ IH]; intros repos.
  - cbn. by rewrite app_nil_r.
  - cbn. rewrite Hr. cbn. rewrite IH. by rewrite <- app_assoc.
Qed.

Lemma gets_app l1 l2 : gets (l1 ++ l2) = gets l1 ++ gets l2.
Proof. apply omap_app. Qed.

Lemma page_not_signal r : status_code r < 400 → ¬ rate_limit_signal r.
Proof. intros H [H403 _]. lia. Qed.

(** The code asks for what the specification names. *)
Lemma endpoint_spec is_org : build_repos_endpoint owner is_org = spec_endpoint owner is_org.
Proof. by destruct is_org. Qed.

Lemma params_spec page : page_params page = spec_params page.
Proof. reflexivity. Qed.





End Listing.



(** Without rate-limit answers the page indices are 1, 2, 3, ... *)
Lemma page_numbers_pages page (pages : list (list Item)) :
  page_numbers page (Paged <$> pages) = seqZ page (Z.of_nat (length pages)).
Proof.
  revert page. induction pages as [|p pages IH]; intros page; [done |].
  cbn [fmap list_fmap page_numbers length]. rewrite IH.
  rewrite Nat2Z.inj_succ, (seqZ_cons page) by lia.
  by rewrite Z.pred_succ.
Qed.

(** Without an empty page the loop does not end: whatever the fuel, the
    model is cut off. *)
Lemma fetch_all_repos_needs_empty_page env owner is_org :
  (∀ k, ∃ item items, answers (server env k) (Paged (item :: items))
          ∧ ∃ decoded, Forall2 (λ i r, repo_of_item owner i = Ok r)
                         (item :: items) decoded) →
  ∀ fuel st, (fetch_all_repos env fuel owner is_org st).1 = OutOfFuel.
Proof.
  intros Hpages fuel. unfold fetch_all_repos.
  generalize (build_repos_endpoint owner is_org) as url.
  generalize 1 as page. generalize (@nil Repo) as repos.
  induction fuel as [|fuel IH]; intros repos page url st; [done |].
  destruct (Hpages (served st)) as (item & items & Ha & decoded & Hdec).
  inversion Ha as [|r items' Ho Hs Hj]; subst.
  rewrite fetch_loop_unfold. unfold mbind, M_bind.
  rewrite (request_ends env fuel url _ st r Ho (or_introl (page_not_signal r Hs))).
  destruct (Z.leb_spec 400 (status_code r)); [lia |].
  unfold handle_page, json_list. rewrite Hj, bind_ret.
  rewrite (append_items_ok _ _ repos decoded Hdec), bind_lift_ok.
  apply IH.
Qed.



(** The run of the sample script, evaluated. *)
Example fetch_all_repos_sample :
  (fetch_all_repos (env_of true sample_script) 4 (Some (lit "octocat")) false
     (initial 1000)).1
  = Ok [repo "a" false; repo "b" true].
Proof. by vm_compute. Qed.

(** *** The clone loop *)

Section CloneLoop.
Variable env : Env.
Variable args : Args.

Lemma git_commands_app l1 l2 :
  git_commands (l1 ++ l2) = git_commands l1 ++ git_commands l2.
Proof. apply omap_app. Qed.

Lemma sleeps_app l1 l2 : sleeps (l1 ++ l2) = sleeps l1 ++ sleeps l2.
Proof. apply omap_app. Qed.

Lemma throttle_sleep_cases st :
  throttle_sleep (arg_interval args) st
  = if SLEEP_MAX_SECONDS <? Z.max MIN_CLONE_INTERVAL_SECONDS (arg_interval args)
    then (Raise OverflowError, st)
    else (Ok (),
          {| now := now st + Z.max MIN_CLONE_INTERVAL_SECONDS (arg_interval args);
             served := served st;
             log := log st
                    ++ [Sleep (Z.max MIN_CLONE_INTERVAL_SECONDS (arg_interval args))] |}).
Proof.
  unfold throttle_sleep, time_sleep.
  destruct (SLEEP_MAX_SECONDS <? _); [done |].
  destruct (Z.ltb_spec (Z.max MIN_CLONE_INTERVAL_SECONDS (arg_interval args)) 0);
    [unfold MIN_CLONE_INTERVAL_SECONDS in *; lia | done].
Qed.

Ltac log_facts :=
  cbn; rewrite ?gets_app, ?git_commands_app, ?sleeps_app; cbn;
  rewrite ?app_nil_r, ?Z.add_0_r; try done.

Ltac turn_done :=
  rewrite ?Z.add_0_r; eexists; split_and!; [| | | reflexivity |]; log_facts.

Ltac sleep_cases :=
  rewrite throttle_sleep_cases; destruct (SLEEP_MAX_SECONDS <? _); cbn.

(** One turn of the loop: what it logs, and whether it goes on. *)
Lemma clone_loop_turn total pos repo rest clones_done st :
  ∃ st1,
    served st1 = served st
    ∧ gets (log st1) = gets (log st)
    ∧ git_commands (log st1)
      = git_commands (log st) ++ option_list (git_command env args pos repo)
    ∧ match turn_raises env args pos with
      | None =>
          clone_loop env args total pos (repo :: rest) clones_done st
          = clone_loop env args total (S pos) rest
              (clones_done + (if git_succeeded env args pos then 1 else 0)) st1
          ∧ sleeps (log st1)
            = sleeps (log st)
              ++ (if sleeps_after env args pos
                  then [Z.max MIN_CLONE_INTERVAL_SECONDS (arg_interval args)]
                  else [])
      | Some e =>
          clone_loop env args total pos (repo :: rest) clones_done st
          = (Raise e, st1)
          ∧ sleeps (log st1) = sleeps (log st)
      end.
Proof.
  cbn [clone_loop].
  unfold turn_raises, git_runs, git_succeeded, git_runs, sleeps_after, git_command,
    isdir_git, run_git_pull, run_git_clone, subprocess_run, print, emit, mbind,
    M_bind, mret, M_ret.
  cbn -[throttle_sleep].
  destruct (has_git_dir env pos); cbn -[throttle_sleep].
  - destruct (arg_pull_if_exists args); cbn -[throttle_sleep].
    + destruct (git_starts env pos); cbn -[throttle_sleep]; [| turn_done].
      destruct (Z.eqb_spec (git_rc env pos) 0) as [E | E];
        [rewrite bool_decide_eq_false_2 by (intros H; by apply H)
        | rewrite bool_decide_eq_true_2 by done];
        cbn -[throttle_sleep];
        (destruct (arg_sleep_on_skip args); cbn -[throttle_sleep];
         [sleep_cases |]; turn_done).
    + destruct (arg_sleep_on_skip args); cbn -[throttle_sleep];
        [sleep_cases |]; turn_done.
  - destruct (git_starts env pos); cbn -[throttle_sleep]; [| turn_done].
    destruct (Z.eqb_spec (git_rc env pos) 0) as [E | E];
      [rewrite bool_decide_eq_false_2 by (intros H; by apply H)
      | rewrite bool_decide_eq_true_2 by done];
      cbn -[throttle_sleep]; sleep_cases; turn_done.
Qed.






(** The loop ends: normally when no turn raises, and with an exception as
    soon as one does. *)
Lemma clone_loop_ends total rest : ∀ pos clones_done st,
  ∃ res st',
    clone_loop env args total pos rest clones_done st = (res, st')
    ∧ gets (log st') = gets (log st)
    ∧ ((∀ i, (pos ≤ i < pos + length rest)%nat → turn_raises env args i = None) →
       ∃ n, res = Ok n)
    ∧ (∀ i e, (pos ≤ i < pos + length rest)%nat →
         turn_raises env args i = Some e → ∃ e', res = Raise e').
Proof.
  induction rest as [|repo rest IH]; intros pos clones_done st.
  - exists (Ok clones_done), st. split_and!; [done | done | by eexists |].
    intros i e Hi. cbn in Hi. lia.
  - destruct (clone_loop_turn total pos repo rest clones_done st)
      as (st1 & _ & Hg1 & _ & Hturn).
    destruct (turn_raises env args pos) as [e|] eqn:Ht.
    + destruct Hturn as [-> _]. exists (Raise e), st1.
      split_and!; [done | done | | by eexists].
      intros Hfine. rewrite (Hfine pos) in Ht by (cbn; lia). done.
    + destruct Hturn as [-> _].
      destruct (IH (S pos)
                  (clones_done + (if git_succeeded env args pos then 1 else 0)) st1)
        as (res & st' & -> & Hg & Hok & Hraise).
      exists res, st'. split_and!; [done | congruence | |].
      * intros Hfine. apply Hok. intros i Hi. apply Hfine. cbn. lia.
      * intros i e Hi He. destruct (decide (i = pos)) as [-> | Hne];
          [congruence |].
        apply (Hraise i e); [cbn in Hi; lia | done].
Qed.


End CloneLoop.

(** *** [main] *)

Section Main.
Variable Pattern : Type.
Variable re_compile : pystr → option Pattern.
Variable re_search : Pattern → pystr → bool.
Variable str_lower : pystr → pystr.
Variable env : Env.

Abbreviation main := (main Pattern re_compile re_search str_lower env).


End Main.



(** With an interval that [time.sleep] refuses and a repository to clone,
    the run ends with the uncaught [OverflowError], status 1, after the
    first clone. *)
Example main_interval_overflow :
  let run := main no_pattern no_compile no_search ascii_str_lower
               (env_of true sample_script) 10 (args_with_interval 99999999999)
               (initial 1000) in
  run.1 = Raise OverflowError
  ∧ exit_status run.1 = Some 1
  ∧ git_commands (log run.2)
    = [GitClone (lit "git@github.com:octocat/a.git") (lit "./repos/a")].
Proof. by vm_compute. Qed.

(** The whole run of the sample script with an interval of 10 seconds: the
    listing, the filter, one clone, and status 0. *)
Example main_sample :
  let run := main no_pattern no_compile no_search ascii_str_lower
               (env_of true sample_script) 10 (args_with_interval 10)
               (initial 1000) in
  exit_status run.1 = Some 0
  ∧ filter (λ ev, is_network_or_subprocess ev = true) (log run.2)
    = [Get (lit "https://api.github.com/users/octocat/repos") (page_params 1);
       Get (lit "https://api.github.com/users/octocat/repos") (page_params 1);
       Get (lit "https://api.github.com/users/octocat/repos") (page_params 2);
       Get (lit "https://api.github.com/users/octocat/repos") (page_params 2);
       GitClone (lit "git@github.com:octocat/a.git") (lit "./repos/a")].
Proof. by vm_compute. Qed.


End GithubFacts.

(** ** More on the GitHub repository fetcher *)

Module GithubMore.
Import GithubScraping GithubRun GithubFacts.

(** *** The clone loop *)

Section CloneLoop.
Variable env : Env.
Variable args : Args.





End CloneLoop.





(** *** Requests *)

Section Requests.
Variable env : Env.

Ltac run_request :=
  unfold requests_get, int_of, time_time, time_sleep, check_status, print, emit,
    raise, mbind, M_bind, mret, M_ret; cbn.

(** What every call does, whatever the server answers and however it
    ends. *)
Lemma request_run url params fuel : ∀ st res st',
  request_with_rate_limit env fuel url params st = (res, st') →
  (served st ≤ served st')%nat
  ∧ gets (log st')
    = gets (log st) ++ replicate (served st' - served st) (url, params)
  ∧ (∀ r, res = Ok r →
       status_code r < 400 ∧ (served st < served st')%nat
       ∧ outcome (server env (pred (served st'))) = Some r).
Proof.
  induction fuel as [|fuel IH]; intros st res st'.
  - intros [= <- <-]. rewrite Nat.sub_diag. cbn. rewrite app_nil_r.
    split_and!; [lia | done | done].
  - assert (∀ l rest, gets rest = [] →
              gets (l ++ Get url params :: rest)
              = gets l ++ replicate (S (served st) - served st) (url, params))
      as Hone.
    { intros l rest Hrest. rewrite gets_app.
      change (gets (Get url params :: rest)) with ((url, params) :: gets rest).
      rewrite Hrest.
      by replace (S (served st) - served st)%nat with 1%nat by lia. }
    destruct (request_cases env fuel url params st)
      as [(res0 & -> & Hok) | [(n & ->) | (n & ->)]].
    + intros [= <- <-]. cbn. split_and!; [lia | by apply Hone |].
      intros r ->. destruct (Hok r eq_refl). split_and!; [done | lia | done].
    + intros [= <- <-]. cbn. split_and!; [lia | by apply Hone | done].
    + intros (Hle & Hgets & Hok)%IH. cbn in Hle, Hgets, Hok.
      split_and!.
      * lia.
      * rewrite Hgets, !gets_app. cbn. rewrite <- app_assoc.
        f_equal.
        replace (served st' - served st)%nat with (S (served st' - S (served st)))
          by lia.
        done.
      * intros r0 Hr0. destruct (Hok r0 Hr0) as (? & ? & ?).
        split_and!; [done | lia | done].
Qed.

(** X4: a response that [request_with_rate_limit] returns has a status below
    400, and it is the answer to the last request made; at least one request
    was made. *)
Theorem request_returns_success fuel url params st r st' :
  request_with_rate_limit env fuel url params st = (Ok r, st') →
  status_code r < 400
  ∧ (served st < served st')%nat
  ∧ outcome (server env (pred (served st'))) = Some r.
Proof.
  intros H. by apply (request_run url params fuel st (Ok r) st' H).
Qed.

(** X5: a rate-limit answer whose reset header is not an integer makes the
    call raise [ValueError] after the one request, without sleeping. *)
Theorem reset_not_integer_raises fuel url params st r reset :
  outcome (server env (served st)) = Some r →
  rate_limit_signal r →
  headers_get "X-RateLimit-Reset" r = Some reset → py_int reset = None →
  request_with_rate_limit env (S fuel) url params st
  = (Raise ValueError, after_get st (server env (served st)) url params).
Proof. apply request_reset_not_integer. Qed.

End Requests.

(** The theorem at the third call of the sample script, which is answered by
    a rate-limit answer and then by the empty page. *)
Lemma request_returns_success_witness :
  ∃ r st',
    request_with_rate_limit (env_of true sample_script) 3
      (lit "https://api.github.com/users/octocat/repos") (page_params 2)
      {| now := 1004; served := 2; log := [] |} = (Ok r, st')
    ∧ status_code r < 400.
Proof.
  destruct (request_with_rate_limit (env_of true sample_script) 3
              (lit "https://api.github.com/users/octocat/repos") (page_params 2)
              {| now := 1004; served := 2; log := [] |})
    as [[r|e|c|] st'] eqn:E; [| vm_compute in E; discriminate E ..].
  exists r, st'. split; [reflexivity |].
  exact (proj1 (request_returns_success (env_of true sample_script) 3 _ _ _ r st' E)).
Defined.

(** The theorem at a rate-limit answer whose reset header reads "soon". *)
Lemma reset_not_integer_raises_witness :
  py_int "soon" = None
  ∧ request_with_rate_limit (env_of true (λ _, answer quota_until_soon)) 1
      (lit "https://api.github.com/users/octocat/repos") (page_params 1)
      (initial 1000)
    = (Raise ValueError,
       after_get (initial 1000) (answer quota_until_soon)
         (lit "https://api.github.com/users/octocat/repos") (page_params 1)).
Proof.
  split; [reflexivity |].
  apply (reset_not_integer_raises (env_of true (λ _, answer quota_until_soon)) 0
           _ _ (initial 1000) quota_until_soon "soon"%string).
  - reflexivity.
  - split; reflexivity.
  - reflexivity.
  - reflexivity.
Defined.

(** *** The listing *)

Lemma climbs_replicate_app k p l :
  l = [] ∨ ((0 < k)%nat ∧ climbs (p + 1) l) → climbs p (replicate k p ++ l).
Proof.
  induction k as [|k IH]; intros H.
  - destruct H as [-> | [H _]]; [done | lia].
  - cbn. split; [done |]. destruct k as [|k].
    + cbn. destruct H as [-> | [_ H]]; [by left | by right].
    + left. apply IH. destruct H as [-> | [_ H]]; [by left | right].
      split; [lia | done].
Qed.

Section Listing.
Variable env : Env.
Variable url : pystr.
Variable owner : option pystr.

(** Whatever the server answers and however the loop ends, its requests go
    to [url], one after the other, and the page index climbs. *)
Lemma fetch_loop_run fuel : ∀ page repos st res st',
  fetch_loop env fuel url owner page repos st = (res, st') →
  ∃ ps, (served st ≤ served st')%nat
    ∧ gets (log st') = gets (log st) ++ ((λ p, (url, page_params p)) <$> ps)
    ∧ climbs page ps
    ∧ length ps = (served st' - served st)%nat.
Proof.
  induction fuel as [|fuel IH]; intros page repos st res st'.
  - intros [= <- <-]. exists []. rewrite Nat.sub_diag, app_nil_r. by split_and!.
  - rewrite fetch_loop_unfold. unfold mbind, M_bind.
    destruct (request_with_rate_limit env (S fuel) url (page_params page) st)
      as [res1 st1] eqn:E1.
    apply request_run in E1 as (Hle & Hg & Hok).
    assert (∀ res0, ∃ ps, (served st ≤ served st1)%nat
      ∧ gets (log st1) = gets (log st) ++ ((λ p, (url, page_params p)) <$> ps)
      ∧ climbs page ps ∧ length ps = (served st1 - served st)%nat
      ∧ (res0 : Result (list Repo)) = res0) as Hstop.
    { intros res0. exists (replicate (served st1 - served st) page).
      rewrite fmap_replicate, length_replicate. split_and!; try done.
      rewrite <- (app_nil_r (replicate _ _)). apply climbs_replicate_app. by left. }
    destruct res1 as [r|e|c|];
      try (intros [= <- <-]; destruct (Hstop OutOfFuel) as (ps & ? & ? & ? & ? & _);
           by exists ps).
    destruct (Hok r eq_refl) as (_ & Hlt & _).
    unfold handle_page, json_list.
    destruct (json r) as [| |items]; unfold raise;
      try (intros [= <- <-]; destruct (Hstop OutOfFuel) as (ps & ? & ? & ? & ? & _);
           by exists ps).
    rewrite bind_ret. destruct items as [|item items].
    { intros [= <- <-]. destruct (Hstop OutOfFuel) as (ps & ? & ? & ? & ? & _).
      by exists ps. }
    unfold lift, mbind, M_bind.
    destruct (append_items owner (item :: items) repos) as [repos'|e|c|];
      try (intros [= <- <-]; destruct (Hstop OutOfFuel) as (ps & ? & ? & ? & ? & _);
           by exists ps).
    intros (ps & Hle' & Hg' & Hc' & Hlen')%IH.
    exists (replicate (served st1 - served st) page ++ ps). split_and!.
    + lia.
    + rewrite Hg', Hg, fmap_app, fmap_replicate. by rewrite <- app_assoc.
    + apply climbs_replicate_app. right. split; [lia | done].
    + rewrite length_app, length_replicate. lia.
Qed.





End Listing.

(** Every request of the listing goes to the endpoint and carries the
    parameters the specification names. *)
Lemma listing_requests env fuel owner is_org st :
  ∃ ps,
    gets (log (fetch_all_repos env fuel owner is_org st).2)
    = gets (log st)
      ++ ((λ p, (spec_endpoint owner is_org, spec_params p)) <$> ps)
    ∧ climbs 1 ps
    ∧ length ps
      = (served (fetch_all_repos env fuel owner is_org st).2 - served st)%nat.
Proof.
  destruct (fetch_all_repos env fuel owner is_org st) as [res st'] eqn:E.
  unfold fetch_all_repos in E.
  apply fetch_loop_run in E as (ps & _ & Hg & Hc & Hl). exists ps.
  rewrite endpoint_spec in Hg. done.
Qed.

(** X6: whatever the server answers and however the listing ends, every
    request of [fetch_all_repos] goes to
    [https://api.github.com/users/{owner}/repos], or [/orgs/{owner}/repos]
    for an organisation, with [per_page=100], [type=all], [sort=updated],
    [direction=desc] and a page index; the page index of the first request
    is 1 and from one request to the next it stays or advances by one; each
    request is logged once. *)
Theorem fetch_all_repos_requests env fuel owner is_org st :
  ∃ ps,
    gets (log (fetch_all_repos env fuel owner is_org st).2)
    = gets (log st)
      ++ ((λ p, (lit "https://api.github.com"
                 ++ (if is_org then lit "/orgs/" else lit "/users/")
                 ++ fmt owner ++ lit "/repos",
                 ({[ "per_page"%string := PInt 100;
                     "page"%string := PInt p;
                     "type"%string := PStr "all";
                     "sort"%string := PStr "updated";
                     "direction"%string := PStr "desc" ]}
                  : gmap string ParamValue))) <$> ps)
    ∧ climbs 1 ps
    ∧ length ps
      = (served (fetch_all_repos env fuel owner is_org st).2 - served st)%nat.
Proof. apply listing_requests. Qed.



(** The listing logs requests, rate-limit messages and sleeps, and nothing
    else: no git command in particular. *)
Lemma request_no_git env url params fuel : ∀ st res st',
  request_with_rate_limit env fuel url params st = (res, st') →
  git_commands (log st') = git_commands (log st).
Proof.
  induction fuel as [|fuel IH]; intros st res st'; [by intros [= <- <-] |].
  destruct (request_cases env fuel url params st)
    as [(res0 & -> & _) | [(n & ->) | (n & ->)]].
  - intros [= <- <-]. cbn. rewrite git_commands_app. apply app_nil_r.
  - intros [= <- <-]. cbn. rewrite git_commands_app. apply app_nil_r.
  - intros ->%IH. cbn. rewrite git_commands_app. apply app_nil_r.
Qed.

Lemma fetch_loop_no_git env url owner fuel : ∀ page repos st res st',
  fetch_loop env fuel url owner page repos st = (res, st') →
  git_commands (log st') = git_commands (log st).
Proof.
  induction fuel as [|fuel IH]; intros page repos st res st';
    [by intros [= <- <-] |].
  rewrite fetch_loop_unfold. unfold mbind, M_bind.
  destruct (request_with_rate_limit env (S fuel) url (page_params page) st)
    as [res1 st1] eqn:E1.
  apply request_no_git in E1.
  destruct res1 as [r|e|c|]; try (by intros [= <- <-]).
  unfold handle_page, json_list.
  destruct (json r) as [| |items]; unfold raise; try (by intros [= <- <-]).
  rewrite bind_ret. destruct items as [|item items]; [by intros [= <- <-] |].
  unfold lift, mbind, M_bind.
  destruct (append_items owner (item :: items) repos) as [repos'|e|c|];
    try (by intros [= <- <-]).
  intros ->%IH. done.
Qed.

(** *** The filter *)

Section Filter.
Variable Pattern : Type.
Variable re_compile : pystr → option Pattern.
Variable re_search : Pattern → pystr → bool.
Variable str_lower : pystr → pystr.

Abbreviation filter_repos := (filter_repos Pattern re_compile re_search str_lower).
Abbreviation keeps := (keeps Pattern re_search str_lower).
Abbreviation compiled := (compiled Pattern re_compile).
Abbreviation filter_ok := (filter_repos_ok Pattern re_compile re_search str_lower).
Abbreviation filter_raises :=
  (filter_repos_raises Pattern re_compile re_search str_lower).

(** X8: without [--include-archived] no archived repository is returned,
    and the result is the result with [--include-archived] without its
    archived repositories. *)
Theorem filter_repos_drops_archived repos ms mr ifk :
  filter_repos repos ms mr false ifk
  = (filter_repos repos ms mr true ifk
     ≫= λ kept, Ok (filter (λ r, archived r = false) kept))
  ∧ ∀ kept, filter_repos repos ms mr false ifk = Ok kept →
      Forall (λ r, archived r = false) kept.
Proof.
  assert (filter_repos repos ms mr false ifk
          = (filter_repos repos ms mr true ifk
             ≫= λ kept, Ok (filter (λ r, archived r = false) kept))) as Heq.
  { destruct (regex_cases Pattern re_compile mr) as [[Ht Hc] | H].
    - by rewrite !(filter_raises repos ms mr _ ifk Ht Hc).
    - rewrite !(filter_ok repos ms mr _ ifk H). cbn. f_equal.
      rewrite list_filter_filter. apply list_filter_iff. intros r.
      unfold GithubScraping.keeps. cbn.
      destruct (archived r), (matched _ _ _ _ _ r); cbn; intuition discriminate. }
  split; [exact Heq |].
  intros kept. rewrite Heq.
  destruct (filter_repos repos ms mr true ifk) as [k| | |]; cbn; try done.
  intros [= <-]. apply PyStrFacts.filter_Forall.
Qed.

(** X9: filtering a concatenation is filtering its parts: the result for
    [l1 ++ l2] is the result for [l1] followed by the result for [l2]. *)
Theorem filter_repos_app l1 l2 ms mr ia ifk :
  filter_repos (l1 ++ l2) ms mr ia ifk
  = (filter_repos l1 ms mr ia ifk ≫= λ k1,
     filter_repos l2 ms mr ia ifk ≫= λ k2, Ok (k1 ++ k2)).
Proof.
  destruct (regex_cases Pattern re_compile mr) as [[Ht Hc] | H].
  - by rewrite !(filter_raises _ ms mr ia ifk Ht Hc).
  - rewrite !(filter_ok _ ms mr ia ifk H). cbn. by rewrite filter_app.
Qed.

(** X10: a substring filter and a regular expression given together widen
    each other: a repository is kept when it is kept for the substring alone
    or for the regular expression alone. *)
Theorem filter_repos_either repos sub mr ia ifk :
  truthy mr = true → is_Some (re_compile (fmt mr)) →
  ∃ both by_sub by_regex,
    filter_repos repos (Some sub) mr ia ifk = Ok both
    ∧ filter_repos repos (Some sub) None ia ifk = Ok by_sub
    ∧ filter_repos repos None mr ia ifk = Ok by_regex
    ∧ ∀ r, r ∈ both ↔ r ∈ by_sub ∨ r ∈ by_regex.
Proof.
  intros Ht [c Hc].
  assert (truthy mr = false ∨ is_Some (re_compile (fmt mr))) as H
    by (right; by eexists).
  eexists _, _, _. split_and!.
  - apply (filter_ok repos (Some sub) mr ia ifk H).
  - apply (filter_ok repos (Some sub) None ia ifk). by left.
  - apply (filter_ok repos None mr ia ifk H).
  - intros r. rewrite !list_elem_of_filter.
    unfold GithubScraping.keeps, GithubScraping.compiled, matched.
    rewrite Ht, Hc. cbn.
    destruct (negb ia && archived r); cbn; [tauto |].
    destruct (match sub with [] => false | _ :: _ => true end
              && contains (str_lower sub) (str_lower (text_blob r))),
      (re_search c (text_blob r)); cbn; tauto.
Qed.

End Filter.

(** The theorem with the literal engine: "oct" as substring and "b" as
    regular expression. *)
Lemma filter_repos_either_witness :
  ∃ both by_sub by_regex,
    filter_repos pystr literal_compile literal_search ascii_str_lower
      [repo "a" false; repo "b" false] (Some (lit "OCT")) (Some (lit "b"))
      false true = Ok both
    ∧ filter_repos pystr literal_compile literal_search ascii_str_lower
        [repo "a" false; repo "b" false] (Some (lit "OCT")) None false true
      = Ok by_sub
    ∧ filter_repos pystr literal_compile literal_search ascii_str_lower
        [repo "a" false; repo "b" false] None (Some (lit "b")) false true
      = Ok by_regex
    ∧ ∀ r, r ∈ both ↔ r ∈ by_sub ∨ r ∈ by_regex.
Proof.
  apply (filter_repos_either pystr literal_compile literal_search ascii_str_lower).
  - reflexivity.
  - by eexists.
Defined.

(** The theorem at three repositories, the second archived. *)
Lemma filter_repos_drops_archived_witness :
  filter_repos no_pattern no_compile no_search ascii_str_lower
    [repo "a" false; repo "b" true; repo "c" false] None None false true
  = Ok [repo "a" false; repo "c" false]
  ∧ Forall (λ r, archived r = false) [repo "a" false; repo "c" false].
Proof.
  assert (filter_repos no_pattern no_compile no_search ascii_str_lower
            [repo "a" false; repo "b" true; repo "c" false] None None false true
          = Ok [repo "a" false; repo "c" false]) as H by reflexivity.
  split; [exact H |].
  exact (proj2 (filter_repos_drops_archived no_pattern no_compile no_search
    ascii_str_lower _ None None true) _ H).
Defined.

(** *** [main] *)

Section Main.
Variable Pattern : Type.
Variable re_compile : pystr → option Pattern.
Variable re_search : Pattern → pystr → bool.
Variable str_lower : pystr → pystr.
Variable env : Env.

Abbreviation main := (main Pattern re_compile re_search str_lower env).

Ltac run_main :=
  unfold GithubScraping.main, ensure_git_available, makedirs, try_except, lift,
    mbind, M_bind, emit, print, emit, sys_exit, raise, mret, M_ret;
  cbn -[fetch_all_repos clone_loop GithubScraping.filter_repos].

(** X11: a regular expression that does not compile ends the run with an
    uncaught exception, status 1, after the whole listing has been fetched
    and before any git command. *)
Theorem main_regex_error fuel args st repos st1 :
  git_on_path env = true →
  MIN_CLONE_INTERVAL_SECONDS ≤ arg_interval args → makedirs_ok env = true →
  fetch_all_repos env fuel (py_or (arg_user args) (arg_org args))
    (truthy (arg_org args)) (before_listing args st) = (Ok repos, st1) →
  truthy (arg_regex args) = true → re_compile (fmt (arg_regex args)) = None →
  main fuel args st
  = (Raise ReError,
     {| now := now st1; served := served st1;
        log := log st1 ++ [Print (MsgFetched (length repos))] |})
  ∧ exit_status (main fuel args st).1 = Some 1
  ∧ git_commands (log (main fuel args st).2) = git_commands (log st).
Proof.
  intros Hgit Hge%Z.ltb_ge Hmk Hfetch Ht Hc.
  assert (main fuel args st
          = (Raise ReError,
             {| now := now st1; served := served st1;
                log := log st1 ++ [Print (MsgFetched (length repos))] |})) as Hrun.
  { run_main. rewrite Hgit, Hge, Hmk.
    cbn -[fetch_all_repos clone_loop GithubScraping.filter_repos].
    rewrite <- !app_assoc.
    cbn -[fetch_all_repos clone_loop GithubScraping.filter_repos].
    fold (before_listing args st). rewrite Hfetch.
    by rewrite (filter_repos_raises Pattern re_compile re_search str_lower repos
                  (arg_match args) (arg_regex args) _ true Ht Hc). }
  rewrite Hrun. split_and!; [done | done |]. cbn.
  rewrite git_commands_app, app_nil_r.
  unfold fetch_all_repos in Hfetch. apply fetch_loop_no_git in Hfetch.
  rewrite Hfetch. unfold before_listing. cbn.
  by rewrite git_commands_app, app_nil_r.
Qed.

(** X12: when the destination directory cannot be made, the run ends with an
    uncaught exception, status 1, before any request. *)
Theorem main_makedirs_error fuel args st :
  git_on_path env = true →
  MIN_CLONE_INTERVAL_SECONDS ≤ arg_interval args → makedirs_ok env = false →
  main fuel args st
  = (Raise OSError,
     {| now := now st; served := served st;
        log := log st ++ [Which; Makedirs (arg_dest args)] |})
  ∧ exit_status (main fuel args st).1 = Some 1.
Proof.
  intros Hgit Hge%Z.ltb_ge Hmk.
  assert (main fuel args st
          = (Raise OSError,
             {| now := now st; served := served st;
                log := log st ++ [Which; Makedirs (arg_dest args)] |})) as Hrun.
  { run_main. rewrite Hgit, Hge, Hmk.
    cbn -[fetch_all_repos clone_loop GithubScraping.filter_repos].
    by rewrite <- !app_assoc. }
  by rewrite Hrun.
Qed.

(** X13: whatever happens, every HTTP request of a run goes to
    [https://api.github.com/users/{owner}/repos], or [/orgs/{owner}/repos]
    when [--org] is given, with [per_page=100], [type=all], [sort=updated],
    [direction=desc] and a page index that starts at 1 and climbs by steps
    of at most one; the owner is [args.user or args.org], so that with
    [--user ""] the endpoint is that of the user "None". *)
Theorem main_requests fuel args st :
  (∃ ps,
     gets (log (main fuel args st).2)
     = gets (log st)
       ++ ((λ p, (lit "https://api.github.com"
                  ++ (if truthy (arg_org args) then lit "/orgs/" else lit "/users/")
                  ++ fmt (py_or (arg_user args) (arg_org args)) ++ lit "/repos",
                  ({[ "per_page"%string := PInt 100;
                      "page"%string := PInt p;
                      "type"%string := PStr "all";
                      "sort"%string := PStr "updated";
                      "direction"%string := PStr "desc" ]}
                   : gmap string ParamValue))) <$> ps)
     ∧ climbs 1 ps)
  ∧ (arg_user args = Some [] → arg_org args = None →
     lit "https://api.github.com"
     ++ (if truthy (arg_org args) then lit "/orgs/" else lit "/users/")
     ++ fmt (py_or (arg_user args) (arg_org args)) ++ lit "/repos"
     = lit "https://api.github.com/users/None/repos").
Proof.
  split; [| by intros -> ->].
  change (∃ ps,
     gets (log (main fuel args st).2)
     = gets (log st)
       ++ ((λ p, (spec_endpoint (py_or (arg_user args) (arg_org args))
                    (truthy (arg_org args)), spec_params p)) <$> ps)
     ∧ climbs 1 ps).
  run_main.
  destruct (git_on_path env);
    cbn -[fetch_all_repos clone_loop GithubScraping.filter_repos].
  2: { exists []. rewrite !gets_app. cbn. by rewrite !app_nil_r. }
  destruct (arg_interval args <? MIN_CLONE_INTERVAL_SECONDS);
    cbn -[fetch_all_repos clone_loop GithubScraping.filter_repos].
  { exists []. rewrite !gets_app. cbn. by rewrite !app_nil_r. }
  destruct (makedirs_ok env);
    cbn -[fetch_all_repos clone_loop GithubScraping.filter_repos].
  2: { exists []. rewrite !gets_app. cbn. by rewrite !app_nil_r. }
  rewrite <- !app_assoc.
  cbn -[fetch_all_repos clone_loop GithubScraping.filter_repos].
  fold (before_listing args st).
  destruct (listing_requests env fuel (py_or (arg_user args) (arg_org args))
              (truthy (arg_org args)) (before_listing args st))
    as (ps & Hg & Hc & _).
  assert (gets (log (before_listing args st)) = gets (log st)) as Hb
    by (unfold before_listing; cbn; rewrite gets_app; cbn; apply app_nil_r).
  rewrite Hb in Hg.
  destruct (fetch_all_repos env fuel (py_or (arg_user args) (arg_org args))
              (truthy (arg_org args)) (before_listing args st))
    as [[repos|e|c|] st1]; cbn in Hg;
    cbn -[fetch_all_repos clone_loop GithubScraping.filter_repos];
    try (exists ps; rewrite ?gets_app; cbn; rewrite ?app_nil_r; by split).
  destruct (GithubScraping.filter_repos Pattern re_compile re_search str_lower repos
              (arg_match args) (arg_regex args) (arg_include_archived args) true)
    as [kept|e|c|];
    cbn -[fetch_all_repos clone_loop GithubScraping.filter_repos];
    try (exists ps; rewrite ?gets_app; cbn; rewrite ?app_nil_r; by split).
  match goal with
  | |- context [clone_loop env args ?t ?p ?l ?c ?s0] =>
      destruct (clone_loop_ends env args t l p c s0)
        as (res & st' & -> & Hgets & _)
  end.
  cbn [log] in Hgets. rewrite ?gets_app in Hgets. cbn in Hgets.
  rewrite ?app_nil_r in Hgets.
  destruct res as [n|e|c|]; cbn; exists ps; rewrite ?gets_app, Hgets; cbn;
    rewrite ?app_nil_r; by split.
Qed.

End Main.

(** The theorem at the sample script and an unbalanced parenthesis. *)
Lemma main_regex_error_witness :
  exit_status
    (main no_pattern no_compile no_search ascii_str_lower
       (env_of true sample_script) 10 args_bad_regex (initial 1000)).1
  = Some 1.
Proof.
  destruct (fetch_all_repos (env_of true sample_script) 10
              (py_or (arg_user args_bad_regex) (arg_org args_bad_regex))
              (truthy (arg_org args_bad_regex))
              (before_listing args_bad_regex (initial 1000)))
    as [[repos|e|c|] st1] eqn:E; [| vm_compute in E; discriminate E ..].
  refine (proj1 (proj2 (main_regex_error no_pattern no_compile no_search
    ascii_str_lower (env_of true sample_script) 10 args_bad_regex (initial 1000)
    repos st1 eq_refl _ eq_refl E eq_refl eq_refl))).
  discriminate.
Defined.

(** The theorem where the directory cannot be made. *)
Lemma main_makedirs_error_witness :
  exit_status
    (main no_pattern no_compile no_search ascii_str_lower env_no_makedirs 10
       (args_with_interval 10) (initial 1000)).1
  = Some 1.
Proof.
  refine (proj2 (main_makedirs_error no_pattern no_compile no_search
    ascii_str_lower env_no_makedirs 10 (args_with_interval 10) (initial 1000)
    eq_refl _ eq_refl)).
  discriminate.
Defined.

(** The theorem at [--user ""]. *)
Lemma main_requests_witness :
  lit "https://api.github.com"
  ++ (if truthy (arg_org args_empty_user) then lit "/orgs/" else lit "/users/")
  ++ fmt (py_or (arg_user args_empty_user) (arg_org args_empty_user))
  ++ lit "/repos"
  = lit "https://api.github.com/users/None/repos".
Proof.
  exact (proj2 (main_requests no_pattern no_compile no_search ascii_str_lower
    (env_of true sample_script) 10 args_empty_user (initial 1000))
    eq_refl eq_refl).
Defined.

End GithubMore.

(** ** More on the arXiv paper fetcher *)

Module ArxivMore.
Import ArxivScraping ArxivRun PyStrFacts ArxivFacts.

(** *** File names *)

Section FileNames.
Variable isalnum_wide : N → bool.

Lemma startswith_slash b : 0x2F%N ∉ b → startswith (lit "/") b = false.
Proof.
  destruct b as [|c b]; [done |]. intros H.
  change (lit "/") with [0x2F%N]. cbn [startswith].
  destruct (N.eqb_spec 0x2F c) as [<- | _]; [| done].
  exfalso. apply H. by left.
Qed.

Lemma safe_title_no_slash title : 0x2F%N ∉ safe_title isalnum_wide title.
Proof.
  intros H. pose proof (safe_title_kept isalnum_wide title) as Hk.
  rewrite Forall_forall in Hk. by apply Hk in H.
Qed.

(** The identifier of a parsed record is the end of the id text after its
    last slash. *)
Lemma parse_entry_id entry p i :
  parse_entry entry = Ok p → arxiv_id p = Some i → 0x2F%N ∉ i.
Proof.
  unfold parse_entry.
  destruct (match find (atom "title") entry with
            | Some e => text_strip e | None => Ok (lit "Unknown Title") end)
    as [t|]; cbn; [| done].
  destruct (match find (atom "summary") entry with
            | Some e => text_strip e | None => Ok [] end) as [su|]; cbn; [| done].
  destruct (find (atom "id") entry) as [ie|]; cbn.
  - destruct (text ie) as [x|]; cbn; [| done].
    intros [= <-]. cbn. intros [= <-].
    by destruct (split_last 0x2F%N x) as (? & _ & ? & _).
  - intros [= <-]. done.
Qed.

Lemma for_each_elem {A B} (f : A → Result B) xs ys y :
  for_each f xs = Ok ys → y ∈ ys → ∃ x, x ∈ xs ∧ f x = Ok y.
Proof.
  revert ys. induction xs as [|x xs IH]; intros ys; cbn.
  - intros [= <-] H. by apply elem_of_nil in H.
  - destruct (f x) as [b|] eqn:Hx; cbn; [| done].
    destruct (for_each f xs) as [bs|]; cbn; [| done].
    intros [= <-] [-> | H]%elem_of_cons.
    + exists x. split; [by left | done].
    + destruct (IH bs eq_refl H) as (x' & ? & ?). exists x'. split; [by right | done].
Qed.

Lemma last_default (a : pystr) d : List.last a d = default d (last a).
Proof.
  induction a as [|c a IH]; [done |].
  destruct a as [|c' a']; [done |].
  change (List.last (c :: c' :: a') d) with (List.last (c' :: a') d).
  rewrite IH. by rewrite last_cons_cons.
Qed.

(** [os.path.join] with a second part that holds no slash. *)
Lemma path_join_relative a b :
  0x2F%N ∉ b →
  path_join a b
  = if decide (a = []) then b
    else if decide (last a = Some 0x2F%N) then a ++ b
    else a ++ lit "/" ++ b.
Proof.
  intros Hb. unfold path_join. rewrite (startswith_slash _ Hb).
  rewrite last_default.
  destruct (decide (a = [])) as [-> | Ha]; [done |].
  destruct (last a) as [c|] eqn:Hl; [| by apply last_None in Hl].
  cbn. destruct (decide (Some c = Some 0x2F%N)) as [[= ->] | Hc]; [done |].
  repeat case_match; subst; done.
Qed.

(** X14: for every record that [parse_response] returns, the file name that
    [download_paper] builds holds no slash, so the file is written directly
    in the download directory: the path is the file name alone when the
    directory is the empty string, the directory followed by the file name
    when the directory ends in a slash, and the directory, a slash and the
    file name otherwise. *)
Theorem parsed_file_name_has_no_slash root papers self p i :
  parse_response root = Ok papers → p ∈ papers → arxiv_id p = Some i →
  let filename := i ++ lit "_" ++ safe_title isalnum_wide (title p) ++ lit ".pdf" in
  (0x2F%N ∉ filename)
  ∧ filepath isalnum_wide self p i
    = (if decide (download_dir self = []) then filename
       else if decide (last (download_dir self) = Some 0x2F%N)
            then download_dir self ++ filename
            else download_dir self ++ lit "/" ++ filename).
Proof.
  intros Hparse Hp Hi filename.
  destruct (for_each_elem parse_entry _ _ p Hparse Hp) as (entry & _ & He).
  pose proof (parse_entry_id entry p i He Hi) as Hid.
  assert (0x2F%N ∉ filename) as Hf.
  { unfold filename. rewrite !not_elem_of_app. split_and!.
    - done.
    - intros H%list_elem_of_In. vm_compute in H. intuition discriminate.
    - apply safe_title_no_slash.
    - intros H%list_elem_of_In. vm_compute in H. intuition discriminate. }
  split; [done |].
  unfold filepath. fold filename. by apply path_join_relative.
Qed.

End FileNames.

(** *** [download_paper] *)

Section Download.
Variable isalnum_wide : N → bool.
Variable env : Env.

(** What [download_paper] does is the same in every state: the same result,
    the same events, and a change of the files at the path of the record
    only. *)
Lemma download_paper_frame self paper :
  ∃ b evs,
    urls evs = option_list (requested paper)
    ∧ (∀ path, FileOpen path ∈ evs →
         ∃ i, arxiv_id paper = Some i ∧ path = filepath isalnum_wide self paper i)
    ∧ ∀ st, ∃ fs,
        download_paper isalnum_wide env self paper st
        = (Ok b, {| files := fs; log := log st ++ evs |})
        ∧ ∀ path,
            (∀ i, arxiv_id paper = Some i →
               path ≠ filepath isalnum_wide self paper i) →
            fs !! path = files st !! path.
Proof.
  unfold requested. run_download.
  destruct (pdf_url paper) as [url|] eqn:Hurl; cbn.
  2: { exists false, [Print (MsgPdfLinkNotFound (title paper))].
       split_and!; [by destruct (arxiv_id paper) | |].
       - intros path [= ]%list_elem_of_singleton.
       - intros st. by exists (files st). }
  destruct (arxiv_id paper) as [i|] eqn:Hi; cbn.
  2: { exists false, [Print (MsgDownloadErrorExn (KeyError "arxiv_id"))].
       split_and!; [done | |].
       - intros path [= ]%list_elem_of_singleton.
       - intros st. by exists (files st). }
  fold (filepath isalnum_wide self paper i).
  destruct url as [u|]; cbn.
  2: { exists false, [Print (MsgDownloading (title paper)); HttpGet None;
                      Print (MsgDownloadErrorExn RequestException)].
       split_and!; [done | |].
       - intros path H. repeat (apply elem_of_cons in H as [[= ] | H]).
         by apply elem_of_nil in H.
       - intros st. exists (files st). by rewrite <- !app_assoc. }
  destruct (http env u) as [|code body] eqn:Hu; cbn.
  { exists false, [Print (MsgDownloading (title paper)); HttpGet (Some u);
                   Print (MsgDownloadErrorExn RequestException)].
    split_and!; [done | |].
    - intros path H. repeat (apply elem_of_cons in H as [[= ] | H]).
      by apply elem_of_nil in H.
    - intros st. exists (files st). by rewrite <- !app_assoc. }
  destruct (Z.eqb_spec code 200) as [-> | Hcode]; cbn.
  2: { exists false, [Print (MsgDownloading (title paper)); HttpGet (Some u);
                      Print (MsgDownloadErrorStatus code)].
       split_and!; [done | |].
       - intros path H. repeat (apply elem_of_cons in H as [[= ] | H]).
         by apply elem_of_nil in H.
       - intros st. exists (files st). by rewrite <- !app_assoc. }
  destruct (disk env (filepath isalnum_wide self paper i) body) as [|n|] eqn:Hd;
    cbn.
  - exists false, [Print (MsgDownloading (title paper)); HttpGet (Some u);
                   FileOpen (filepath isalnum_wide self paper i);
                   Print (MsgDownloadErrorExn OSError)].
    split_and!; [done | |].
    + intros path H. repeat (apply elem_of_cons in H as [[= ] | H]); subst.
      * by exists i.
      * by apply elem_of_nil in H.
    + intros st. exists (files st). by rewrite <- !app_assoc.
  - exists false, [Print (MsgDownloading (title paper)); HttpGet (Some u);
                   FileOpen (filepath isalnum_wide self paper i);
                   Print (MsgDownloadErrorExn OSError)].
    split_and!; [done | |].
    + intros path H. repeat (apply elem_of_cons in H as [[= ] | H]); subst.
      * by exists i.
      * by apply elem_of_nil in H.
    + intros st.
      exists (<[filepath isalnum_wide self paper i := take n body]> (files st)).
      split; [by rewrite <- !app_assoc |].
      intros path Hp. apply lookup_insert_ne. intros <-. by apply (Hp i).
  - exists true, [Print (MsgDownloading (title paper)); HttpGet (Some u);
                  FileOpen (filepath isalnum_wide self paper i);
                  Print (MsgDownloadCompleted
                           (i ++ lit "_" ++ safe_title isalnum_wide (title paper)
                              ++ lit ".pdf"))].
    split_and!; [done | |].
    + intros path H. repeat (apply elem_of_cons in H as [[= ] | H]); subst.
      * by exists i.
      * by apply elem_of_nil in H.
    + intros st.
      exists (<[filepath isalnum_wide self paper i := body]> (files st)).
      split; [by rewrite <- !app_assoc |].
      intros path Hp. apply lookup_insert_ne. intros <-. by apply (Hp i).
Qed.

(** X15: a record with a PDF link and no identifier (an entry without an id
    element) is not downloaded: the [KeyError] is caught, "Download error" is
    printed and [False] returned, with no request and no file touched. *)
Theorem download_paper_missing_id self paper st :
  is_Some (pdf_url paper) → arxiv_id paper = None →
  download_paper isalnum_wide env self paper st
  = (Ok false,
     {| files := files st;
        log := log st ++ [Print (MsgDownloadErrorExn (KeyError "arxiv_id"))] |})
  ∧ prefix_of (MsgDownloadErrorExn (KeyError "arxiv_id")) = lit "Download error: ".
Proof.
  intros [url Hurl] Hi. split; [| done]. run_download. by rewrite Hurl, Hi.
Qed.

(** X16: when the write raises after [n] bytes, [download_paper] returns
    [False] and leaves the file behind with the first [n] bytes of the body:
    nothing removes a partial download. *)
Theorem download_paper_partial_write self paper st i u body n :
  arxiv_id paper = Some i → pdf_url paper = Some (Some u) →
  http env u = Response 200 body →
  disk env (filepath isalnum_wide self paper i) body = WriteRaises n →
  ∃ st', download_paper isalnum_wide env self paper st = (Ok false, st')
    ∧ files st' !! filepath isalnum_wide self paper i = Some (take n body)
    ∧ last (log st') = Some (Print (MsgDownloadErrorExn OSError)).
Proof.
  intros Hi Hurl Hu Hd. run_download. rewrite Hurl, Hi. cbn. rewrite Hu. cbn.
  fold (filepath isalnum_wide self paper i). rewrite Hd. cbn.
  eexists. split; [done |]. cbn. split; [by rewrite lookup_insert_eq |].
  by rewrite last_snoc.
Qed.

(** X17: whatever the record, the server, the disk and the state it starts
    in, [download_paper] returns a boolean and never raises; it makes one
    request when the record has a link and an identifier and none
    otherwise; it opens no file but the one of the record, and every other
    file is left as it was. *)
Theorem download_paper_footprint self paper st :
  ∃ b evs fs,
    download_paper isalnum_wide env self paper st
    = (Ok b, {| files := fs; log := log st ++ evs |})
    ∧ omap (λ ev, match ev with HttpGet u => Some u | _ => None end) evs
      = match arxiv_id paper, pdf_url paper with
        | Some _, Some url => [url]
        | _, _ => []
        end
    ∧ (∀ path, FileOpen path ∈ evs →
         ∃ i, arxiv_id paper = Some i ∧ path = filepath isalnum_wide self paper i)
    ∧ ∀ path,
        (∀ i, arxiv_id paper = Some i →
           path ≠ filepath isalnum_wide self paper i) →
        fs !! path = files st !! path.
Proof.
  destruct (download_paper_frame self paper) as (b & evs & Hu & Hopen & Hst).
  destruct (Hst st) as (fs & E & Hfs).
  exists b, evs, fs. split_and!; [done | | done | done].
  unfold urls, requested in Hu. rewrite Hu.
  by destruct (arxiv_id paper), (pdf_url paper).
Qed.

End Download.

(** *** The loop over the papers *)

Section Loop.
Variable isalnum_wide : N → bool.
Variable env : Env.

Lemma run_sleeps_app l1 l2 : ArxivRun.sleeps (l1 ++ l2) = ArxivRun.sleeps l1 ++ ArxivRun.sleeps l2.
Proof. apply omap_app. Qed.

Lemma downloaded_app l1 l2 : downloaded (l1 ++ l2) = downloaded l1 ++ downloaded l2.
Proof. apply omap_app. Qed.

Lemma searches_app l1 l2 : searches (l1 ++ l2) = searches l1 ++ searches l2.
Proof. apply omap_app. Qed.

Lemma pdf_requests_app l1 l2 :
  pdf_requests (l1 ++ l2) = pdf_requests l1 ++ pdf_requests l2.
Proof. unfold pdf_requests, urls. by rewrite downloaded_app, omap_app. Qed.

Lemma downloaded_fmap evs : downloaded (Download <$> evs) = evs.
Proof. induction evs as [|ev evs IH]; [done |]. cbn. by f_equal. Qed.

Lemma sleeps_fmap evs : ArxivRun.sleeps (Download <$> evs) = [].
Proof. by induction evs. Qed.

Lemma searches_fmap evs : searches (Download <$> evs) = [].
Proof. by induction evs. Qed.

Lemma pdf_requests_fmap evs : pdf_requests (Download <$> evs) = urls evs.
Proof. unfold pdf_requests. by rewrite downloaded_fmap. Qed.

(** [download_paper] inside a run. *)
Lemma lift_download_run self paper rs :
  ∃ evs fs,
    urls evs = option_list (requested paper)
    ∧ lift_download (download_paper isalnum_wide env (core self) paper) rs
      = (Returns (downloads isalnum_wide env self paper),
         {| run_files := fs; dirs := dirs rs;
            run_log := run_log rs ++ (Download <$> evs) |}).
Proof.
  destruct (download_paper_frame isalnum_wide env (core self) paper)
    as (b & evs & Hu & _ & Hst).
  destruct (Hst {| files := run_files rs; log := [] |}) as (fs & E & _).
  destruct (Hst {| files := ∅; log := [] |}) as (fs0 & E0 & _).
  exists evs, fs. split; [done |].
  unfold lift_download, downloads. rewrite E, E0. cbn. by destruct b.
Qed.

Lemma join_authors_named (names : list (option pystr)) :
  Forall is_Some names → ∃ l, mapM id names = Some l.
Proof. intros H. by apply (mapM_is_Some_2 id). Qed.

Lemma join_authors_unnamed (names : list (option pystr)) :
  ¬ Forall is_Some names → mapM id names = None.
Proof.
  intros H. destruct (mapM id names) eqn:E; [| done].
  exfalso. apply H. apply (mapM_is_Some_1 id). by rewrite E.
Qed.

(** One turn of the loop on a record whose authors all have a name. *)
Lemma download_all_cons self total i paper rest count rs :
  all_named paper →
  ∃ rs' l,
    download_all isalnum_wide env self total i (paper :: rest) count rs
    = download_all isalnum_wide env self total (S i) rest
        (if downloads isalnum_wide env self paper then count + 1 else count) rs'
    ∧ run_log rs' = run_log rs ++ l
    ∧ dirs rs' = dirs rs
    ∧ ArxivRun.sleeps l = [1]
    ∧ pdf_requests l = option_list (requested paper)
    ∧ searches l = [].
Proof.
  intros [names Hn]%join_authors_named.
  destruct (lift_download_run self paper
              {| run_files := run_files rs; dirs := dirs rs;
                 run_log := ((run_log rs ++ [Say (MsgIndex i total)])
                             ++ [Say (MsgTitle (title paper))])
                             ++ [Say (MsgAuthors (join (lit ", ") names))] |})
    as (evs & fs & Hu & E).
  eexists _, ([Say (MsgIndex i total); Say (MsgTitle (title paper));
               Say (MsgAuthors (join (lit ", ") names))]
              ++ (Download <$> evs) ++ [Sleep 1]).
  split_and!.
  - cbn [download_all].
    unfold mbind, RunM_bind, say, run_emit, join_authors, ArxivRun.time_sleep,
      mret, RunM_ret.
    cbn -[lift_download download_paper download_all].
    rewrite Hn. cbn -[lift_download download_paper download_all].
    rewrite E. cbn -[lift_download download_paper download_all]. reflexivity.
  - cbn. by rewrite <- !app_assoc.
  - done.
  - rewrite !run_sleeps_app, sleeps_fmap. done.
  - rewrite !pdf_requests_app, pdf_requests_fmap, Hu. cbn. by rewrite app_nil_r.
  - rewrite !searches_app, searches_fmap. done.
Qed.

(** A record with an author whose name is [None] ends the loop. *)
Lemma download_all_type_error self total i paper rest count rs :
  ¬ all_named paper →
  download_all isalnum_wide env self total i (paper :: rest) count rs
  = (Raises TypeError,
     {| run_files := run_files rs; dirs := dirs rs;
        run_log := run_log rs ++ [Say (MsgIndex i total);
                                  Say (MsgTitle (title paper))] |}).
Proof.
  intros Hn%join_authors_unnamed. cbn [download_all].
  unfold mbind, RunM_bind, say, run_emit, join_authors, run_raise.
  cbn -[lift_download download_paper download_all].
  rewrite Hn. by rewrite <- app_assoc.
Qed.

(** The loop over a first part of the list whose authors all have names. *)
Lemma download_all_prefix self total done rest : ∀ i count rs,
  Forall all_named done →
  ∃ rs' l,
    download_all isalnum_wide env self total i (done ++ rest) count rs
    = download_all isalnum_wide env self total (i + length done) rest
        (count + Z.of_nat (length (filter (λ p, downloads isalnum_wide env self p)
                                     done))) rs'
    ∧ run_log rs' = run_log rs ++ l
    ∧ dirs rs' = dirs rs
    ∧ ArxivRun.sleeps l = replicate (length done) 1
    ∧ pdf_requests l = omap requested done
    ∧ searches l = [].
Proof.
  induction done as [|p done IH]; intros i count rs Hall.
  - exists rs, []. cbn. rewrite Nat.add_0_r, Z.add_0_r, app_nil_r. done.
  - apply Forall_cons in Hall as [Hp Hall].
    destruct (download_all_cons self total i p (done ++ rest) count rs Hp)
      as (rs1 & l1 & E1 & Hl1 & Hd1 & Hs1 & Hr1 & Hq1).
    destruct (IH (S i)
                (if downloads isalnum_wide env self p then count + 1 else count)
                rs1 Hall)
      as (rs2 & l2 & E2 & Hl2 & Hd2 & Hs2 & Hr2 & Hq2).
    exists rs2, (l1 ++ l2). split_and!.
    + cbn [app]. rewrite E1, E2. f_equal.
      * cbn [length]. lia.
      * rewrite filter_cons.
        destruct (downloads isalnum_wide env self p);
          [rewrite decide_True by done | rewrite decide_False by (cbn; tauto)];
          cbn [length]; lia.
    + by rewrite Hl2, Hl1, <- app_assoc.
    + congruence.
    + rewrite run_sleeps_app, Hs1, Hs2. done.
    + rewrite pdf_requests_app, Hr1, Hr2. cbn. by destruct (requested p).
    + rewrite searches_app, Hq1, Hq2. done.
Qed.

(** The loop over a list whose authors all have names. *)
Lemma download_all_named self total papers i count rs :
  Forall all_named papers →
  ∃ rs' l,
    download_all isalnum_wide env self total i papers count rs
    = (Returns (count + Z.of_nat (length (filter (λ p, downloads isalnum_wide env
                                                     self p) papers))), rs')
    ∧ run_log rs' = run_log rs ++ l
    ∧ ArxivRun.sleeps l = replicate (length papers) 1
    ∧ pdf_requests l = omap requested papers.
Proof.
  intros Hall.
  destruct (download_all_prefix self total papers [] i count rs Hall)
    as (rs' & l & E & Hl & _ & Hs & Hr & _).
  rewrite app_nil_r in E. exists rs', l. split_and!; [exact E | done..].
Qed.

(** In every case the loop makes no search request and leaves the
    directories alone. *)
Lemma download_all_any self total papers : ∀ i count rs,
  ∃ r rs' l,
    download_all isalnum_wide env self total i papers count rs = (r, rs')
    ∧ run_log rs' = run_log rs ++ l
    ∧ dirs rs' = dirs rs
    ∧ searches l = [].
Proof.
  induction papers as [|p papers IH]; intros i count rs.
  - exists (Returns count), rs, []. by rewrite app_nil_r.
  - destruct (join_authors (authors p)
                {| run_files := run_files rs; dirs := dirs rs;
                   run_log := (run_log rs ++ [Say (MsgIndex i total)])
                              ++ [Say (MsgTitle (title p))] |})
      as [r rs0] eqn:Ej.
    unfold join_authors in Ej.
    destruct (mapM id (authors p)) as [names|] eqn:Hn.
    + assert (all_named p) as Hp
        by (apply (mapM_is_Some_1 id); by rewrite Hn).
      destruct (download_all_cons self total i p papers count rs Hp)
        as (rs1 & l1 & E1 & Hl1 & Hd1 & _ & _ & Hq1).
      destruct (IH (S i)
                  (if downloads isalnum_wide env self p then count + 1 else count)
                  rs1)
        as (r2 & rs2 & l2 & E2 & Hl2 & Hd2 & Hq2).
      exists r2, rs2, (l1 ++ l2). split_and!.
      * by rewrite E1.
      * by rewrite Hl2, Hl1, <- app_assoc.
      * congruence.
      * by rewrite searches_app, Hq1, Hq2.
    + assert (¬ all_named p) as Hp.
      { intros H%(mapM_is_Some_2 id). rewrite Hn in H. by destruct H. }
      rewrite (download_all_type_error self total i p papers count rs Hp).
      eexists _, _, _. split_and!; [done | done | done | done].
Qed.

End Loop.

(** *** The whole run *)

Section Run.
Variable isalnum_wide : N → bool.
Variable env : Env.
Variable world : World.

Lemma exists_in_bool rs path :
  bool_decide (path ∈ dirs rs) || bool_decide (is_Some (run_files rs !! path))
  = true ↔ exists_in rs path.
Proof.
  unfold exists_in. rewrite orb_true_iff, !bool_decide_eq_true. done.
Qed.

Lemma directory_ready_dec self rs :
  directory_ready world self rs ∨ ¬ directory_ready world self rs.
Proof.
  unfold directory_ready.
  destruct (bool_decide (download_dir (core self) ∈ dirs rs)
            || bool_decide (is_Some (run_files rs !! download_dir (core self))))
    eqn:E.
  - left. left. by apply exists_in_bool.
  - destruct (makedirs_ok world (download_dir (core self))); [by left; right |].
    right. intros [H%exists_in_bool | H]; congruence.
Qed.

(** [create_download_directory] when the directory is there or can be
    made. *)
Lemma create_download_directory_ready self rs :
  directory_ready world self rs →
  ∃ rs' l,
    create_download_directory world self rs = (Returns (), rs')
    ∧ run_files rs' = run_files rs
    ∧ run_log rs' = run_log rs ++ l
    ∧ exists_in rs' (download_dir (core self))
    ∧ (exists_in rs (download_dir (core self)) →
         dirs rs' = dirs rs ∧ l = [PathExists (download_dir (core self))])
    ∧ ArxivRun.sleeps l = [] ∧ downloaded l = [] ∧ searches l = [].
Proof.
  intros Hready.
  unfold create_download_directory, os_path_exists, os_makedirs, mbind,
    RunM_bind, mret, RunM_ret.
  destruct (bool_decide (download_dir (core self) ∈ dirs rs)
            || bool_decide (is_Some (run_files rs !! download_dir (core self))))
    eqn:E.
  - apply exists_in_bool in E. eexists _, _. by split_and!.
  - assert (makedirs_ok world (download_dir (core self)) = true) as ->.
    { destruct Hready as [H%exists_in_bool | H]; congruence. }
    eexists _, [PathExists (download_dir (core self));
                Makedirs (download_dir (core self))].
    split_and!; try done.
    + cbn. by rewrite <- app_assoc.
    + left. cbn. set_solver.
    + intros H%exists_in_bool. congruence.
Qed.

Lemma create_download_directory_fails self rs :
  ¬ directory_ready world self rs →
  create_download_directory world self rs
  = (Raises MakedirsError,
     {| run_files := run_files rs; dirs := dirs rs;
        run_log := run_log rs ++ [PathExists (download_dir (core self));
                                  Makedirs (download_dir (core self))] |}).
Proof.
  intros Hn.
  unfold create_download_directory, os_path_exists, os_makedirs, mbind,
    RunM_bind, mret, RunM_ret.
  destruct (bool_decide (download_dir (core self) ∈ dirs rs)
            || bool_decide (is_Some (run_files rs !! download_dir (core self))))
    eqn:E.
  - exfalso. apply Hn. left. by apply exists_in_bool.
  - destruct (makedirs_ok world (download_dir (core self))) eqn:Em.
    + exfalso. apply Hn. by right.
    + cbn. by rewrite <- app_assoc.
Qed.

Lemma match_nonempty {A B} (l : list A) (a b : B) :
  l ≠ [] → match l with [] => a | _ :: _ => b end = b.
Proof. by destruct l. Qed.

(** [search_papers] by cases on the answer of the server. *)
Lemma search_papers_cases self query n rs :
  let rs1 := {| run_files := run_files rs; dirs := dirs rs;
                run_log := run_log rs
                           ++ [SearchGet (base_url (core self))
                                 (params_of self query n)] |} in
  search_papers world self query n rs
  = match search_outcome world self query n with
    | SearchRaises => (Raises (Uncaught RequestException), rs1)
    | SearchResponse code text =>
        if code =? 200 then
          match fromstring world text with
          | None => (Raises ParseError, rs1)
          | Some root =>
              match parse_response root with
              | Ok papers => (Returns papers, rs1)
              | Raise e => (Raises (Uncaught e), rs1)
              end
          end
        else
          (Returns [],
           {| run_files := run_files rs; dirs := dirs rs;
              run_log := run_log rs1 ++ [Say (MsgSearchError code)] |})
    end.
Proof.
  unfold search_papers, search_outcome, search_get, parse_text, mbind,
    RunM_bind, say, run_emit, run_raise, mret, RunM_ret.
  fold (params_of self query n). cbn -[params_of].
  destruct (search world (base_url (core self)) (params_of self query n))
    as [|code text]; cbn -[params_of]; [done |].
  destruct (code =? 200); cbn -[params_of]; [| done].
  destruct (fromstring world text) as [root|]; cbn -[params_of]; [| done].
  by destruct (parse_response root).
Qed.

(** The run is the two messages, the directory, the search, and then the
    rest on the list of papers. *)
Lemma scrape_unfold self query n rs rs0 :
  create_download_directory world self
    {| run_files := run_files rs; dirs := dirs rs;
       run_log := (run_log rs ++ [Say (MsgSearchQuery query)])
                  ++ [Say (MsgMaxResults n)] |} = (Returns (), rs0) →
  scrape_and_download isalnum_wide env world self query n rs
  = match search_papers world self query n rs0 with
    | (Returns [], rs1) => say MsgNoPapers rs1
    | (Returns papers, rs1) =>
        (_ ← say (MsgFound (length papers));
         success_count ← download_all isalnum_wide env self (length papers) 1
                           papers 0;
         say (MsgCompleted success_count (length papers))) rs1
    | (Raises e, rs1) => (Raises e, rs1)
    end.
Proof.
  intros E0. unfold scrape_and_download.
  unfold mbind at 1 2 3 4, RunM_bind at 1 2 3 4, say at 1 2, run_emit at 1 2.
  cbn -[create_download_directory search_papers download_all].
  rewrite E0.
  destruct (search_papers world self query n rs0) as [[[|p papers]|e] rs1];
    reflexivity.
Qed.

(** The run up to the answer of the search, by cases on that answer. *)
Lemma scrape_cases self query n rs :
  directory_ready world self rs →
  ∃ rs1 l,
    run_files rs1 = run_files rs
    ∧ run_log rs1 = run_log rs ++ l
    ∧ ArxivRun.sleeps l = [] ∧ downloaded l = []
    ∧ searches l = [(base_url (core self), params_of self query n)]
    ∧ match search_outcome world self query n with
      | SearchRaises =>
          scrape_and_download isalnum_wide env world self query n rs
          = (Raises (Uncaught RequestException), rs1)
      | SearchResponse code text =>
          if code =? 200 then
            match fromstring world text with
            | None =>
                scrape_and_download isalnum_wide env world self query n rs
                = (Raises ParseError, rs1)
            | Some root =>
                match parse_response root with
                | Raise e =>
                    scrape_and_download isalnum_wide env world self query n rs
                    = (Raises (Uncaught e), rs1)
                | Ok papers =>
                    scrape_and_download isalnum_wide env world self query n rs
                    = match papers with
                      | [] => say MsgNoPapers
                      | _ :: _ =>
                          _ ← say (MsgFound (length papers));
                          success_count ← download_all isalnum_wide env self
                                            (length papers) 1 papers 0;
                          say (MsgCompleted success_count (length papers))
                      end rs1
                end
            end
          else
            scrape_and_download isalnum_wide env world self query n rs
            = say MsgNoPapers
                {| run_files := run_files rs1; dirs := dirs rs1;
                   run_log := run_log rs1 ++ [Say (MsgSearchError code)] |}
      end.
Proof.
  intros Hready.
  destruct (create_download_directory_ready self
              {| run_files := run_files rs; dirs := dirs rs;
                 run_log := (run_log rs ++ [Say (MsgSearchQuery query)])
                            ++ [Say (MsgMaxResults n)] |} Hready)
    as (rs0 & l0 & E0 & Hf0 & Hl0 & _ & _ & Hs0 & Hd0 & Hq0).
  cbn in Hf0, Hl0.
  exists {| run_files := run_files rs0; dirs := dirs rs0;
            run_log := run_log rs0
                       ++ [SearchGet (base_url (core self))
                             (params_of self query n)] |},
    ([Say (MsgSearchQuery query); Say (MsgMaxResults n)] ++ l0
     ++ [SearchGet (base_url (core self)) (params_of self query n)]).
  split_and!.
  - done.
  - cbn. rewrite Hl0, <- !app_assoc. done.
  - rewrite !run_sleeps_app, Hs0. done.
  - rewrite !downloaded_app, Hd0. done.
  - rewrite !searches_app, Hq0. done.
  - rewrite (scrape_unfold self query n rs rs0 E0), search_papers_cases.
    destruct (search_outcome world self query n) as [|code text]; [done |].
    destruct (code =? 200); [| done].
    destruct (fromstring world text) as [root|]; [| done].
    by destruct (parse_response root) as [[|p papers]|e].
Qed.

Lemma scrape_not_ready self query n rs :
  ¬ directory_ready world self rs →
  scrape_and_download isalnum_wide env world self query n rs
  = (Raises MakedirsError,
     {| run_files := run_files rs; dirs := dirs rs;
        run_log := run_log rs
                   ++ [Say (MsgSearchQuery query); Say (MsgMaxResults n);
                       PathExists (download_dir (core self));
                       Makedirs (download_dir (core self))] |}).
Proof.
  intros Hn.
  pose proof (create_download_directory_fails self
              {| run_files := run_files rs; dirs := dirs rs;
                 run_log := (run_log rs ++ [Say (MsgSearchQuery query)])
                            ++ [Say (MsgMaxResults n)] |} Hn) as E0.
  unfold scrape_and_download.
  unfold mbind at 1 2 3, RunM_bind at 1 2 3, say at 1 2, run_emit at 1 2.
  cbn -[create_download_directory search_papers download_all].
  rewrite E0. cbn. by rewrite <- !app_assoc.
Qed.

(** X18: when the search is answered with 200 and a feed of at least one
    paper whose authors all have names, the run returns normally; it sleeps
    one second after every paper, downloaded or not; it requests the PDF of
    exactly the papers that have a link and an identifier, in the order of
    the feed; and its last line reports the number of papers for which
    [download_paper] returned [True], out of all of them. *)
Theorem scrape_and_download_counts self query n rs papers :
  directory_ready world self rs →
  found world self query n papers → papers ≠ [] → Forall all_named papers →
  ∃ rs' l,
    scrape_and_download isalnum_wide env world self query n rs = (Returns (), rs')
    ∧ run_log rs' = run_log rs ++ l
    ∧ ArxivRun.sleeps l = replicate (length papers) 1
    ∧ pdf_requests l = omap requested papers
    ∧ last l
      = Some (Say (MsgCompleted
                     (Z.of_nat (length (filter (λ p, downloads isalnum_wide env self p)
                                          papers)))
                     (length papers)))
    ∧ (length (filter (λ p, downloads isalnum_wide env self p) papers)
       ≤ length papers)%nat.
Proof.
  intros Hready (text & root & Ho & Hf & Hp) Hne Hall.
  destruct (scrape_cases self query n rs Hready)
    as (rs1 & l1 & _ & Hl1 & Hs1 & Hd1 & _ & Hcase).
  rewrite Ho in Hcase. cbn in Hcase. rewrite Hf, Hp in Hcase.
  rewrite match_nonempty in Hcase by done.
  destruct papers as [|p ps]; [done |].
  destruct (download_all_named isalnum_wide env self (length (p :: ps))
              (p :: ps) 1 0
              {| run_files := run_files rs1; dirs := dirs rs1;
                 run_log := run_log rs1 ++ [Say (MsgFound (length (p :: ps)))] |}
              Hall)
    as (rs2 & l2 & E2 & Hl2 & Hs2 & Hr2).
  eexists _, (l1 ++ [Say (MsgFound (length (p :: ps)))] ++ l2
              ++ [Say (MsgCompleted _ (length (p :: ps)))]).
  split_and!.
  - rewrite Hcase.
    unfold mbind at 1 2, RunM_bind at 1 2, say at 1, run_emit at 1.
    cbn -[download_all filter length]. rewrite E2. reflexivity.
  - cbn -[filter length]. rewrite Hl2. cbn -[filter length].
    rewrite Hl1, <- !app_assoc. done.
  - rewrite !run_sleeps_app, Hs1, Hs2. cbn. by rewrite app_nil_r.
  - rewrite !pdf_requests_app, Hr2.
    unfold pdf_requests at 1. rewrite Hd1. cbn. by rewrite app_nil_r.
  - rewrite !app_assoc, last_snoc. done.
  - apply length_filter.
Qed.

(** X19: when the search is answered with another status than 200, or with
    a feed without entries, the run prints "No papers found." and returns
    normally: no PDF is requested, no file is written, and it does not
    sleep; in the first case the status is reported as a search error. *)
Theorem scrape_and_download_no_papers self query n rs :
  directory_ready world self rs →
  (∃ code text,
     search_outcome world self query n = SearchResponse code text ∧ code ≠ 200)
  ∨ found world self query n [] →
  ∃ rs' l,
    scrape_and_download isalnum_wide env world self query n rs = (Returns (), rs')
    ∧ run_files rs' = run_files rs
    ∧ run_log rs' = run_log rs ++ l
    ∧ ArxivRun.sleeps l = [] ∧ downloaded l = []
    ∧ last l = Some (Say MsgNoPapers)
    ∧ (∀ code text,
         search_outcome world self query n = SearchResponse code text →
         code ≠ 200 → Say (MsgSearchError code) ∈ l).
Proof.
  intros Hready Hnone.
  destruct (scrape_cases self query n rs Hready)
    as (rs1 & l1 & Hf1 & Hl1 & Hs1 & Hd1 & _ & Hcase).
  destruct Hnone as [(code & text & Ho & Hcode) | (text & root & Ho & Hf & Hp)].
  - rewrite Ho in Hcase.
    destruct (Z.eqb_spec code 200) as [-> | _]; [done |].
    eexists _, (l1 ++ [Say (MsgSearchError code); Say MsgNoPapers]).
    split_and!.
    + rewrite Hcase. reflexivity.
    + done.
    + cbn. rewrite Hl1, <- !app_assoc. done.
    + rewrite run_sleeps_app, Hs1. done.
    + rewrite downloaded_app, Hd1. done.
    + by rewrite last_app.
    + intros code' text' H _. rewrite Ho in H. injection H as <- <-.
      set_solver.
  - rewrite Ho in Hcase. cbn in Hcase. rewrite Hf, Hp in Hcase.
    eexists _, (l1 ++ [Say MsgNoPapers]).
    split_and!.
    + rewrite Hcase. reflexivity.
    + done.
    + cbn. rewrite Hl1, <- !app_assoc. done.
    + rewrite run_sleeps_app, Hs1. done.
    + rewrite downloaded_app, Hd1. done.
    + by rewrite last_snoc.
    + intros code' text' H. rewrite Ho in H. by injection H as <- <-.
Qed.

(** X20: nothing in [search_papers] or [scrape_and_download] catches an
    exception: when the search request raises, or the answer is not
    well-formed XML, or [parse_response] raises on it, the whole run raises,
    with no paper downloaded, no file changed and no sleep. *)
Theorem search_failure_is_fatal self query n rs :
  search_fails world self query n →
  ∃ e rs' l,
    scrape_and_download isalnum_wide env world self query n rs = (Raises e, rs')
    ∧ run_files rs' = run_files rs
    ∧ run_log rs' = run_log rs ++ l
    ∧ ArxivRun.sleeps l = [] ∧ downloaded l = [].
Proof.
  intros Hfail.
  destruct (directory_ready_dec self rs) as [Hready | Hn].
  2: { rewrite (scrape_not_ready self query n rs Hn).
       eexists _, _, _. by split_and!. }
  destruct (scrape_cases self query n rs Hready)
    as (rs1 & l1 & Hf1 & Hl1 & Hs1 & Hd1 & Hq1 & Hcase).
  destruct Hfail as [Ho | (text & Ho & [Hf | (root & e & Hf & Hp)])];
    rewrite Ho in Hcase; cbn in Hcase; rewrite ?Hf, ?Hp in Hcase;
    by eexists _, rs1, l1.
Qed.

(** X21: a paper with an author whose name element is empty stops the run:
    [', '.join] raises [TypeError] on the [None] in its author list, after
    the papers before it were handled (one sleep each) and before anything
    of this paper or a later one is requested. *)
Theorem unnamed_author_is_fatal self query n rs done p rest :
  directory_ready world self rs →
  found world self query n (done ++ p :: rest) →
  Forall all_named done → ¬ all_named p →
  ∃ rs' l,
    scrape_and_download isalnum_wide env world self query n rs
    = (Raises TypeError, rs')
    ∧ run_log rs' = run_log rs ++ l
    ∧ ArxivRun.sleeps l = replicate (length done) 1
    ∧ pdf_requests l = omap requested done
    ∧ last l = Some (Say (MsgTitle (title p))).
Proof.
  intros Hready (text & root & Ho & Hf & Hp) Hall Hn.
  destruct (scrape_cases self query n rs Hready)
    as (rs1 & l1 & _ & Hl1 & Hs1 & Hd1 & _ & Hcase).
  rewrite Ho in Hcase. cbn in Hcase. rewrite Hf, Hp in Hcase.
  set (total := length (done ++ p :: rest)) in *.
  destruct (download_all_prefix isalnum_wide env self total done (p :: rest) 1 0
              {| run_files := run_files rs1; dirs := dirs rs1;
                 run_log := run_log rs1 ++ [Say (MsgFound total)] |} Hall)
    as (rs2 & l2 & E2 & Hl2 & _ & Hs2 & Hr2 & _).
  rewrite (download_all_type_error isalnum_wide env self total _ p rest _ rs2 Hn)
    in E2.
  assert (scrape_and_download isalnum_wide env world self query n rs
          = (Raises TypeError,
             {| run_files := run_files rs2; dirs := dirs rs2;
                run_log := run_log rs2
                           ++ [Say (MsgIndex (1 + length done) total);
                               Say (MsgTitle (title p))] |})) as E.
  { rewrite match_nonempty in Hcase by (by destruct done).
    rewrite Hcase.
    unfold mbind at 1 2, RunM_bind at 1 2, say at 1, run_emit at 1.
    cbn -[download_all]. rewrite E2. reflexivity. }
  eexists _, (l1 ++ [Say (MsgFound total)] ++ l2
              ++ [Say (MsgIndex (1 + length done) total);
                  Say (MsgTitle (title p))]).
  split_and!.
  - exact E.
  - cbn. rewrite Hl2. cbn. rewrite Hl1, <- !app_assoc. done.
  - rewrite !run_sleeps_app, Hs1, Hs2. cbn. by rewrite app_nil_r.
  - rewrite !pdf_requests_app, Hr2.
    unfold pdf_requests at 1. rewrite Hd1. cbn. by rewrite app_nil_r.
  - by rewrite !last_app.
Qed.

(** A run makes at most one search request, before any download and any
    sleep. *)
Lemma scrape_searches self query n rs :
  ∃ r rs' before after,
    scrape_and_download isalnum_wide env world self query n rs = (r, rs')
    ∧ run_log rs' = run_log rs ++ before ++ after
    ∧ downloaded before = [] ∧ ArxivRun.sleeps before = []
    ∧ searches after = []
    ∧ (searches before
       = [(base_url (core self),
           {| search_query := query; start := 0; max_results := n;
              sortBy := default (lit "relevance") (sort_by self);
              sortOrder := default (lit "descending") (sort_order self) |})]
       ∨ (searches before = [] ∧ after = [] ∧ r = Raises MakedirsError)).
Proof.
  destruct (directory_ready_dec self rs) as [Hready | Hn].
  2: { rewrite (scrape_not_ready self query n rs Hn).
       eexists _, _, _, []. split_and!; [done | by rewrite app_nil_r | done..| ].
       right. done. }
  destruct (scrape_cases self query n rs Hready)
    as (rs1 & l1 & Hf1 & Hl1 & Hs1 & Hd1 & Hq1 & Hcase).
  fold (params_of self query n).
  assert (∀ r rs' after,
            scrape_and_download isalnum_wide env world self query n rs = (r, rs') →
            run_log rs' = run_log rs1 ++ after → searches after = [] →
            ∃ r rs' before after,
              scrape_and_download isalnum_wide env world self query n rs = (r, rs')
              ∧ run_log rs' = run_log rs ++ before ++ after
              ∧ downloaded before = [] ∧ ArxivRun.sleeps before = []
              ∧ searches after = []
              ∧ (searches before = [(base_url (core self), params_of self query n)]
                 ∨ (searches before = [] ∧ after = [] ∧ r = Raises MakedirsError)))
    as Hend.
  { intros r rs' after E Hl Hq. exists r, rs', l1, after.
    split_and!; try done; [| by left].
    by rewrite Hl, Hl1, <- app_assoc. }
  destruct (search_outcome world self query n) as [|code text].
  { apply (Hend _ _ [] Hcase); [by rewrite app_nil_r | done]. }
  destruct (code =? 200).
  2: { apply (Hend _ _ [Say (MsgSearchError code); Say MsgNoPapers] Hcase);
         [| done]. cbn. by rewrite <- app_assoc. }
  destruct (fromstring world text) as [root|].
  2: { apply (Hend _ _ [] Hcase); [by rewrite app_nil_r | done]. }
  destruct (parse_response root) as [[|p ps]|e].
  - apply (Hend _ _ [Say MsgNoPapers] Hcase); done.
  - destruct (download_all_any isalnum_wide env self (length (p :: ps)) (p :: ps)
                1 0
                {| run_files := run_files rs1; dirs := dirs rs1;
                   run_log := run_log rs1 ++ [Say (MsgFound (length (p :: ps)))] |})
      as (r2 & rs2 & l2 & E2 & Hl2 & _ & Hq2).
    cbn [run_log] in Hl2.
    assert (scrape_and_download isalnum_wide env world self query n rs
            = match r2 with
              | Returns c => say (MsgCompleted c (length (p :: ps))) rs2
              | Raises e => (Raises e, rs2)
              end) as E.
    { rewrite Hcase.
      unfold mbind at 1 2, RunM_bind at 1 2, say at 1, run_emit at 1.
      cbn -[download_all length]. rewrite E2. reflexivity. }
    destruct r2 as [c|e].
    + apply (Hend _ _ ([Say (MsgFound (length (p :: ps)))] ++ l2
                       ++ [Say (MsgCompleted c (length (p :: ps)))]) E).
      * cbn. rewrite Hl2, <- !app_assoc. done.
      * rewrite !searches_app, Hq2. done.
    + apply (Hend _ _ ([Say (MsgFound (length (p :: ps)))] ++ l2) E).
      * rewrite Hl2, <- !app_assoc. done.
      * rewrite !searches_app, Hq2. done.
  - apply (Hend _ _ [] Hcase); [by rewrite app_nil_r | done].
Qed.

(** X22: a run makes at most one search request, before any download and
    any sleep: to the base URL of the scraper, with [start] 0, the query and
    the maximum it was given, and the sort parameters of the scraper, which
    are "relevance" and "descending" when the attributes were never set. It
    makes none only when the download directory cannot be made, and then
    nothing is downloaded. *)
Theorem scrape_and_download_searches_once self query n rs :
  ∃ r rs' before after,
    scrape_and_download isalnum_wide env world self query n rs = (r, rs')
    ∧ run_log rs' = run_log rs ++ before ++ after
    ∧ downloaded before = [] ∧ ArxivRun.sleeps before = []
    ∧ searches after = []
    ∧ (searches before
       = [(base_url (core self),
           {| search_query := query; start := 0; max_results := n;
              sortBy := default (lit "relevance") (sort_by self);
              sortOrder := default (lit "descending") (sort_order self) |})]
       ∨ (searches before = [] ∧ after = [] ∧ r = Raises MakedirsError)).
Proof. apply scrape_searches. Qed.

(** X23: [main] prints its seven header lines and then makes at most one
    search request: always to http://export.arxiv.org/api/query, with the
    query, the maximum and the two sort parameters of the command line and
    [start] 0. It makes none only when the output directory cannot be made,
    and then it raises with nothing downloaded. *)
Theorem main_search_request args rs :
  ∃ r rs' l,
    main isalnum_wide env world args rs = (r, rs')
    ∧ run_log rs'
      = run_log rs
        ++ [Say MsgBanner; Say MsgRule; Say (MsgQuery (arg_query args));
            Say (MsgMaxResults (arg_max_results args));
            Say (MsgOutputDir (arg_output_dir args));
            Say (MsgSortBy (arg_sort_by args) (arg_sort_order args));
            Say MsgBlank]
        ++ l
    ∧ (searches l
       = [(lit "http://export.arxiv.org/api/query",
           {| search_query := arg_query args; start := 0;
              max_results := arg_max_results args;
              sortBy := arg_sort_by args;
              sortOrder := arg_sort_order args |})]
       ∨ (searches l = [] ∧ downloaded l = [] ∧ r = Raises MakedirsError)).
Proof.
  set (scraper :=
         {| core := {| base_url := lit "http://export.arxiv.org/api/query";
                       download_dir := arg_output_dir args |};
            sort_by := Some (arg_sort_by args);
            sort_order := Some (arg_sort_order args) |}).
  set (header := [Say MsgBanner; Say MsgRule; Say (MsgQuery (arg_query args));
                  Say (MsgMaxResults (arg_max_results args));
                  Say (MsgOutputDir (arg_output_dir args));
                  Say (MsgSortBy (arg_sort_by args) (arg_sort_order args));
                  Say MsgBlank]).
  destruct (scrape_searches scraper (arg_query args) (arg_max_results args)
              {| run_files := run_files rs; dirs := dirs rs;
                 run_log := run_log rs ++ header |})
    as (r & rs' & before & after & E & Hl & Hd & _ & Hq & Hcases).
  exists r, rs', (before ++ after). split_and!.
  - rewrite <- E. unfold main, mbind, RunM_bind, say, run_emit.
    cbn -[scrape_and_download]. fold scraper.
    rewrite <- !app_assoc. reflexivity.
  - rewrite Hl. cbn [run_log]. by rewrite <- !app_assoc.
  - rewrite searches_app, downloaded_app, Hq, Hd.
    destruct Hcases as [-> | (-> & -> & ->)]; [by left | by right].
Qed.

(** X24: after [create_download_directory] returned, no file was touched and
    [os.path.exists] holds of the download path: when nothing was at the
    path, a directory has been made there; when something was there, nothing
    is made, so that a regular file at the path is accepted as it is and the
    path is no directory afterwards either. Calling it again only checks
    that the path exists. *)
Theorem create_download_directory_idempotent self rs rs' :
  create_download_directory world self rs = (Returns (), rs') →
  run_files rs' = run_files rs
  ∧ (download_dir (core self) ∈ dirs rs'
     ∨ is_Some (run_files rs' !! download_dir (core self)))
  ∧ (download_dir (core self) ∉ dirs rs →
     run_files rs !! download_dir (core self) = None →
     dirs rs' = {[download_dir (core self)]} ∪ dirs rs
     ∧ run_log rs' = run_log rs ++ [PathExists (download_dir (core self));
                                    Makedirs (download_dir (core self))])
  ∧ (download_dir (core self) ∈ dirs rs
     ∨ is_Some (run_files rs !! download_dir (core self)) →
     dirs rs' = dirs rs
     ∧ run_log rs' = run_log rs ++ [PathExists (download_dir (core self))])
  ∧ (is_Some (run_files rs !! download_dir (core self)) →
     download_dir (core self) ∉ dirs rs →
     download_dir (core self) ∉ dirs rs')
  ∧ create_download_directory world self rs'
    = (Returns (),
       {| run_files := run_files rs'; dirs := dirs rs';
          run_log := run_log rs' ++ [PathExists (download_dir (core self))] |}).
Proof.
  intros E.
  assert (run_files rs' = run_files rs
          ∧ exists_in rs' (download_dir (core self))
          ∧ (¬ exists_in rs (download_dir (core self)) →
             dirs rs' = {[download_dir (core self)]} ∪ dirs rs
             ∧ run_log rs' = run_log rs ++ [PathExists (download_dir (core self));
                                            Makedirs (download_dir (core self))])
          ∧ (exists_in rs (download_dir (core self)) →
             dirs rs' = dirs rs
             ∧ run_log rs' = run_log rs ++ [PathExists (download_dir (core self))]))
    as (Hf & Hex & Hnew & Hold).
  { revert E.
    unfold create_download_directory, os_path_exists, os_makedirs, mbind,
      RunM_bind, mret, RunM_ret.
    destruct (bool_decide (download_dir (core self) ∈ dirs rs)
              || bool_decide (is_Some (run_files rs !! download_dir (core self))))
      eqn:Eb.
    - apply exists_in_bool in Eb. intros [= <-]. cbn. by split_and!.
    - assert (¬ exists_in rs (download_dir (core self))) as Hn
        by (intros H%exists_in_bool; congruence).
      destruct (makedirs_ok world (download_dir (core self))); [| done].
      intros [= <-]. cbn. split_and!; [done | | | done].
      + left. cbn. set_solver.
      + intros _. split; [done |]. by rewrite <- app_assoc. }
  split_and!.
  - done.
  - exact Hex.
  - intros Hd Hfile. apply Hnew. intros [H | [x Hx]]; [done | congruence].
  - exact Hold.
  - intros Hfile Hd. destruct (Hold (or_intror Hfile)) as [-> _]. done.
  - destruct (create_download_directory_ready self rs' (or_introl Hex))
      as (rs2 & l2 & E2 & Hf2 & Hl2 & _ & Hsame & _).
    destruct (Hsame Hex) as [Hd2 ->].
    rewrite E2. f_equal. destruct rs2. cbn in *. by subst.
Qed.

End Run.

(** *** The theorems at the sample inputs *)

(** The records of the sample feed. *)
Lemma sample_feed_papers :
  ∃ p q, parse_response sample_feed = Ok [p; q]
    ∧ title p = lit "Attention" ∧ arxiv_id p = Some (lit "2101.00001v1")
    ∧ all_named p ∧ all_named q.
Proof.
  destruct (parse_response sample_feed) as [[|p [|q [|]]]|] eqn:E;
    try (vm_compute in E; discriminate E).
  exists p, q. split; [done |].
  vm_compute in E. injection E as <- <-.
  split_and!; [reflexivity | reflexivity | |]; repeat econstructor.
Defined.

(** X14 at the first record of the sample feed. *)
Lemma parsed_file_name_has_no_slash_witness :
  0x2F%N ∉ lit "2101.00001v1" ++ lit "_" ++ safe_title no_table (lit "Attention")
            ++ lit ".pdf".
Proof.
  destruct sample_feed_papers as (p & q & Hparse & Ht & Hi & _).
  rewrite <- Ht.
  exact (proj1 (parsed_file_name_has_no_slash no_table sample_feed [p; q]
                  sample_scraper p (lit "2101.00001v1") Hparse
                  (list_elem_of_here p [q]) Hi)).
Defined.

(** X15 at a record with a link and no identifier. *)
Lemma download_paper_missing_id_witness :
  download_paper no_table sample_env sample_scraper paper_without_id empty_state
  = (Ok false,
     {| files := ∅;
        log := [Print (MsgDownloadErrorExn (KeyError "arxiv_id"))] |}).
Proof.
  assert (is_Some (pdf_url paper_without_id)) as H by (by eexists).
  exact (proj1 (download_paper_missing_id no_table sample_env sample_scraper
                  paper_without_id empty_state H eq_refl)).
Defined.

(** X16 at a disk on which the write fails after two of the four bytes. *)
Lemma download_paper_partial_write_witness :
  ∃ st',
    download_paper no_table (env_write_fails 2) sample_scraper sample_paper
      empty_state = (Ok false, st')
    ∧ files st' !! filepath no_table sample_scraper sample_paper (lit "2101.00001v1")
      = Some [x25; x50].
Proof.
  destruct (download_paper_partial_write no_table (env_write_fails 2)
              sample_scraper sample_paper empty_state (lit "2101.00001v1")
              (lit "http://arxiv.org/pdf/2101.00001v1") [x25; x50; x44; x46] 2
              eq_refl eq_refl eq_refl eq_refl)
    as (st' & E & Hfile & _).
  by exists st'.
Defined.

(** X18 at the sample feed: two papers, two sleeps. *)
Lemma scrape_and_download_counts_witness :
  ∃ rs' l,
    scrape_and_download no_table sample_env (sample_world 200 sample_feed)
      sample_self (lit "attention") 10 fresh = (Returns (), rs')
    ∧ run_log rs' = l
    ∧ ArxivRun.sleeps l = [1; 1].
Proof.
  destruct sample_feed_papers as (p & q & Hparse & _ & _ & Hp & Hq).
  assert (directory_ready (sample_world 200 sample_feed) sample_self fresh)
    as Hready by (right; reflexivity).
  assert (found (sample_world 200 sample_feed) sample_self (lit "attention") 10
            [p; q]) as Hfound.
  { exists (lit "<feed/>"), sample_feed. split_and!; [reflexivity | reflexivity |].
    exact Hparse. }
  assert ([p; q] ≠ []) as Hne by discriminate.
  assert (Forall all_named [p; q]) as Hall by (by repeat constructor).
  destruct (scrape_and_download_counts no_table sample_env
              (sample_world 200 sample_feed) sample_self (lit "attention") 10
              fresh [p; q] Hready Hfound Hne Hall)
    as (rs' & l & E & Hl & Hs & _).
  exists rs', l. by split_and!.
Defined.

(** X19 at a server that answers the search with 404. *)
Lemma scrape_and_download_no_papers_witness :
  ∃ rs' l,
    scrape_and_download no_table sample_env (sample_world 404 sample_feed)
      sample_self (lit "attention") 10 fresh = (Returns (), rs')
    ∧ run_files rs' = ∅
    ∧ run_log rs' = l
    ∧ last l = Some (Say MsgNoPapers).
Proof.
  assert (directory_ready (sample_world 404 sample_feed) sample_self fresh)
    as Hready by (right; reflexivity).
  assert ((∃ code text,
             search_outcome (sample_world 404 sample_feed) sample_self
               (lit "attention") 10 = SearchResponse code text ∧ code ≠ 200)
          ∨ found (sample_world 404 sample_feed) sample_self (lit "attention")
              10 []) as Hnone.
  { left. exists 404, (lit "<feed/>"). split; [reflexivity | discriminate]. }
  destruct (scrape_and_download_no_papers no_table sample_env
              (sample_world 404 sample_feed) sample_self (lit "attention") 10
              fresh Hready Hnone)
    as (rs' & l & E & Hf & Hl & _ & _ & Hlast & _).
  exists rs', l. by split_and!.
Defined.

(** X20 at a feed on which [parse_response] raises. *)
Lemma search_failure_is_fatal_witness :
  ∃ e rs',
    scrape_and_download no_table sample_env
      (sample_world 200 feed_with_empty_summary) sample_self (lit "attention")
      10 fresh = (Raises e, rs')
    ∧ run_files rs' = ∅.
Proof.
  assert (search_fails (sample_world 200 feed_with_empty_summary) sample_self
            (lit "attention") 10) as Hfail.
  { right. exists (lit "<feed/>"). split; [reflexivity |].
    right. exists feed_with_empty_summary, AttributeError.
    split; [reflexivity | vm_compute; reflexivity]. }
  destruct (search_failure_is_fatal no_table sample_env
              (sample_world 200 feed_with_empty_summary) sample_self
              (lit "attention") 10 fresh Hfail)
    as (e & rs' & l & E & Hf & _).
  by exists e, rs'.
Defined.

(** X21 at a feed whose only entry has an author with an empty name. *)
Lemma unnamed_author_is_fatal_witness :
  ∃ rs' l,
    scrape_and_download no_table sample_env
      (sample_world 200 feed_with_empty_name) sample_self (lit "attention") 10
      fresh = (Raises TypeError, rs')
    ∧ ArxivRun.sleeps l = [] ∧ pdf_requests l = [].
Proof.
  assert (∃ p, parse_response feed_with_empty_name = Ok [p] ∧ ¬ all_named p)
    as (p & Hparse & Hp).
  { destruct (parse_response feed_with_empty_name) as [[|p [|]]|] eqn:E;
      try (vm_compute in E; discriminate E).
    exists p. split; [done |].
    vm_compute in E. injection E as <-.
    intros H. apply Forall_inv in H. destruct H as [x Hx]. discriminate Hx. }
  assert (directory_ready (sample_world 200 feed_with_empty_name) sample_self
            fresh) as Hready by (right; reflexivity).
  assert (found (sample_world 200 feed_with_empty_name) sample_self
            (lit "attention") 10 ([] ++ p :: [])) as Hfound.
  { exists (lit "<feed/>"), feed_with_empty_name.
    split_and!; [reflexivity | reflexivity | exact Hparse]. }
  destruct (unnamed_author_is_fatal no_table sample_env
              (sample_world 200 feed_with_empty_name) sample_self
              (lit "attention") 10 fresh [] p [] Hready Hfound
              (Forall_nil_2 _) Hp)
    as (rs' & l & E & _ & Hs & Hr & _).
  by exists rs', l.
Defined.

(** X24 on a fresh disk where the directory can be made. *)
Lemma create_download_directory_idempotent_witness :
  ∃ rs',
    create_download_directory (sample_world 200 sample_feed) sample_self fresh
    = (Returns (), rs')
    ∧ (lit "arxiv_papers" ∈ dirs rs'
       ∨ is_Some (run_files rs' !! lit "arxiv_papers")).
Proof.
  destruct (create_download_directory (sample_world 200 sample_feed) sample_self
              fresh) as [[[]|e] rs'] eqn:E;
    [| vm_compute in E; discriminate E].
  exists rs'. split; [done |].
  exact (proj1 (proj2 (create_download_directory_idempotent
                         (sample_world 200 sample_feed) sample_self fresh rs' E))).
Defined.

End ArxivMore.
